(** * file-to-url: the [FileHandler] class of [src/index.js]

    A shallow embedding of the ingestion / normalisation / transcode
    pipeline and of the two standalone text classifiers, followed by the
    properties the specification states about them.

    Conventions.
    - JavaScript values that reach the code from the caller (option
      values, arguments of the classifiers) are elements of [JsVal];
      numbers are IEEE binary64 floats ([PrimFloat]).
    - A [Buffer] is a list of bytes; a JavaScript string is a [string]
      (a sequence of 8-bit code units, enough for MIME types, paths,
      URLs, base64 text and the binary strings of [atob]/[btoa]).
    - [null] for [this.buffer] and [this.mimeType] is [None].
    - A rejected promise or a [throw] is [inl e]; methods of the handler
      thread the object [this] explicitly.
    - The collaborators ([sharp], [node-fetch], [fs], [mime-types]) and
      the two ECMAScript number/string conversions are the fields of the
      class [Env]. *)

From Stdlib Require Import String Ascii List ZArith Bool Floats Lia.
From Stdlib Require Import DecimalString.
Import ListNotations.

Set Implicit Arguments.

Local Open Scope string_scope.
Local Open Scope list_scope.
Local Open Scope bool_scope.

(* ================================================================== *)
(** * JavaScript values *)
(* ================================================================== *)

Inductive JsVal : Type :=
| JUndefined
| JNull
| JBool (b : bool)
| JNum (f : float)
| JStr (s : string).

(** ECMAScript [ToBoolean]: [undefined], [null], [false], [+0], [-0],
    [NaN] and the empty string are falsy, everything else is truthy. *)
Definition ToBoolean (v : JsVal) : bool :=
  match v with
  | JUndefined => false
  | JNull => false
  | JBool b => b
  | JNum f => negb (PrimFloat.eqb f 0%float || negb (PrimFloat.eqb f f))
  | JStr s => negb (String.eqb s "")
  end.

(** [a || b] *)
Definition js_or (a b : JsVal) : JsVal := if ToBoolean a then a else b.

(** [!a] *)
Definition js_not (a : JsVal) : bool := negb (ToBoolean a).

(** [typeof v === 'string'] *)
Definition typeof_is_string (v : JsVal) : bool :=
  match v with JStr _ => true | _ => false end.

(** [s.startsWith(p)] *)
Definition startsWith (s p : string) : bool := String.prefix p s.

(** [s || d] for a value that is a string or a falsy non-string
    ([false], [null]): the empty string is falsy as well. *)
Definition str_or (s : option string) (d : string) : string :=
  match s with
  | Some s' => if String.eqb s' "" then d else s'
  | None => d
  end.

(** Exceptions: the [name] and [message] of the thrown object. *)
Record Exn : Type := mkExn { exn_name : string; exn_message : string }.

(** [new Error(msg)] *)
Definition Error (msg : string) : Exn := mkExn "Error" msg.
(** [new TypeError(msg)] *)
Definition TypeError (msg : string) : Exn := mkExn "TypeError" msg.

(** A computation that returns or throws. *)
Definition Result (A : Type) : Type := (Exn + A)%type.

Definition rbind {A B} (c : Result A) (k : A -> Result B) : Result B :=
  match c with
  | inl e => inl e
  | inr a => k a
  end.

(** [try { c } catch { h }] *)
Definition try_catch {A} (c : Result A) (h : Exn -> Result A) : Result A :=
  match c with
  | inl e => h e
  | inr a => inr a
  end.

Declare Scope result_scope.
Delimit Scope result_scope with result.
Notation "'let!' x ':=' c 'in' k" := (rbind c (fun x => k))
  (at level 10, x name, c at level 100, k at level 200) : result_scope.

(* ================================================================== *)
(** * Bytes and base64 *)
(* ================================================================== *)

Definition Buffer : Type := list Byte.byte.

Definition byte_to_Z (b : Byte.byte) : Z := Z.of_N (Byte.to_N b).
Definition byte_of_Z (z : Z) : Byte.byte := byte_of_ascii (ascii_of_N (Z.to_N z)).

Module Base64.

Definition alphabet : list ascii :=
  list_ascii_of_string
    "ABCDEFGHIJKLMNOPQRSTUVWXYZabcdefghijklmnopqrstuvwxyz0123456789+/".

(** The character of a six-bit value. *)
Definition char_of (z : Z) : ascii := nth (Z.to_nat z) alphabet "A"%char.

Fixpoint index_of (c : ascii) (l : list ascii) (i : Z) : option Z :=
  match l with
  | [] => None
  | x :: l' => if Ascii.eqb c x then Some i else index_of c l' (i + 1)
  end.

(** The six-bit value of a character of the alphabet. *)
Definition value_of (c : ascii) : option Z := index_of c alphabet 0.

Definition pad : ascii := "="%char.

(** The six-bit groups of a byte sequence, most significant first; a
    final group of one or two bytes is extended with zero bits. *)
Fixpoint sextets (bs : list Byte.byte) : list Z :=
  match bs with
  | a :: b :: c :: rest =>
      let n := (byte_to_Z a * 65536 + byte_to_Z b * 256 + byte_to_Z c)%Z in
      (n / 262144)%Z :: ((n / 4096) mod 64)%Z :: ((n / 64) mod 64)%Z
        :: (n mod 64)%Z :: sextets rest
  | [a; b] =>
      let n := ((byte_to_Z a * 256 + byte_to_Z b) * 4)%Z in
      [(n / 4096)%Z; ((n / 64) mod 64)%Z; (n mod 64)%Z]
  | [a] =>
      let n := (byte_to_Z a * 16)%Z in
      [(n / 64)%Z; (n mod 64)%Z]
  | [] => []
  end.

(** One padding character for each byte the last group lacks. *)
Fixpoint padding (bs : list Byte.byte) : list ascii :=
  match bs with
  | _ :: _ :: _ :: rest => padding rest
  | [_; _] => [pad]
  | [_] => [pad; pad]
  | [] => []
  end.

(** Standard base64 with padding: [buffer.toString('base64')]. *)
Definition encode (bs : list Byte.byte) : string :=
  string_of_list_ascii (map char_of (sextets bs) ++ padding bs).

Definition is_ascii_whitespace (c : ascii) : bool :=
  match N_of_ascii c with
  | 9%N | 10%N | 12%N | 13%N | 32%N => true
  | _ => false
  end.

(** If the length is a multiple of four, drop one or two trailing
    padding characters. *)
Definition strip_padding (l : list ascii) : list ascii :=
  if (List.length l mod 4 =? 0)%nat then
    match rev l with
    | p1 :: p2 :: r =>
        if Ascii.eqb p1 pad then
          if Ascii.eqb p2 pad then rev r else rev (p2 :: r)
        else l
    | [p1] => if Ascii.eqb p1 pad then [] else l
    | [] => l
    end
  else l.

Fixpoint values_of (l : list ascii) : option (list Z) :=
  match l with
  | [] => Some []
  | c :: l' =>
      match value_of c, values_of l' with
      | Some v, Some vs => Some (v :: vs)
      | _, _ => None
      end
  end.

(** Bytes of a sequence of six-bit groups: 24 bits give three bytes;
    of 12 remaining bits the last four are discarded, of 18 the last
    two. *)
Fixpoint bytes_of (vs : list Z) : list Byte.byte :=
  match vs with
  | s1 :: s2 :: s3 :: s4 :: rest =>
      let n := (((s1 * 64 + s2) * 64 + s3) * 64 + s4)%Z in
      byte_of_Z (n / 65536) :: byte_of_Z ((n / 256) mod 256)
        :: byte_of_Z (n mod 256) :: bytes_of rest
  | [s1; s2; s3] =>
      let n := (((s1 * 64 + s2) * 64 + s3) / 4)%Z in
      [byte_of_Z (n / 256); byte_of_Z (n mod 256)]
  | [s1; s2] =>
      let n := ((s1 * 64 + s2) / 16)%Z in
      [byte_of_Z n]
  | _ => []
  end.

(** The forgiving-base64 decode of the WHATWG Infra standard, which
    [atob] runs: ASCII whitespace is removed, padding is optional, a
    length of 1 modulo 4 and any character outside the alphabet are
    failures. *)
Definition decode (s : string) : option (list Byte.byte) :=
  let data := filter (fun c => negb (is_ascii_whitespace c))
                     (list_ascii_of_string s) in
  let data := strip_padding data in
  if (List.length data mod 4 =? 1)%nat then None
  else option_map bytes_of (values_of data).

(** The range of a six-bit value. *)
Definition sextet (z : Z) : Prop := (0 <= z < 64)%Z.

(** What the round trip needs of the character of a six-bit value. *)
Definition char_ok (n : nat) : bool :=
    let c := char_of (Z.of_nat n) in
    match value_of c with
    | Some v => Z.eqb v (Z.of_nat n)
    | None => false
    end
    && negb (is_ascii_whitespace c)
    && negb (Ascii.eqb c pad).

End Base64.

Definition InvalidCharacterError : Exn :=
  mkExn "InvalidCharacterError" "The string to be decoded is not correctly encoded.".

(** [atob(s)]: a binary string, or an [InvalidCharacterError]. *)
Definition atob (s : string) : Result string :=
  match Base64.decode s with
  | Some bs => inr (string_of_list_byte bs)
  | None => inl InvalidCharacterError
  end.

(** [btoa(s)] on a binary string (every code unit below 256). *)
Definition btoa (s : string) : Result string :=
  inr (Base64.encode (list_byte_of_string s)).

(* ================================================================== *)
(** * Regular expressions *)
(* ================================================================== *)

(** The fragment of ECMAScript regular expressions the two literals of
    the source use, with the backtracking semantics of the language:
    alternatives are tried left to right and [*] is greedy.  Both
    literals are anchored with [^] and [$], so [exec] matches the whole
    subject. *)
Module RegExp.

Inductive regex : Type :=
| Eps
| Class (p : ascii -> bool)
| Seq (r1 r2 : regex)
| Alt (r1 r2 : regex)
| Star (r : regex)
| Capture (i : nat) (r : regex).

(** [lo-hi] inside a character class *)
Definition range (lo hi : ascii) (c : ascii) : bool :=
  (N_of_ascii lo <=? N_of_ascii c)%N && (N_of_ascii c <=? N_of_ascii hi)%N.

(** a literal character inside a character class *)
Definition one_of (s : string) (c : ascii) : bool :=
  existsb (Ascii.eqb c) (list_ascii_of_string s).

Fixpoint Lit (s : string) : regex :=
  match s with
  | EmptyString => Eps
  | String c s' => Seq (Class (Ascii.eqb c)) (Lit s')
  end.

(** [r+] *)
Definition Plus (r : regex) : regex := Seq r (Star r).
(** [r?] *)
Definition Opt (r : regex) : regex := Alt r Eps.
(** [r{n}] *)
Fixpoint Repeat (n : nat) (r : regex) : regex :=
  match n with
  | O => Eps
  | S n' => Seq r (Repeat n' r)
  end.

(** The captures recorded so far, most recent first. *)
Definition captures : Type := list (nat * string).

Fixpoint capture (i : nat) (cs : captures) : option string :=
  match cs with
  | [] => None
  | (j, s) :: cs' => if Nat.eqb i j then Some s else capture i cs'
  end.

(** [rmatch r s cs k]: match [r] against a prefix of [s], then hand
    the rest of the subject to the continuation [k]; [None] makes the
    matcher backtrack.  An iteration of [*] that consumes nothing is
    rejected, as in ECMAScript. *)
Fixpoint rmatch (r : regex) (s : list ascii) (cs : captures)
         (k : list ascii -> captures -> option captures)
         {struct r} : option captures :=
  match r with
  | Eps => k s cs
  | Class p =>
      match s with
      | c :: s' => if p c then k s' cs else None
      | [] => None
      end
  | Seq r1 r2 => rmatch r1 s cs (fun s' cs' => rmatch r2 s' cs' k)
  | Alt r1 r2 =>
      match rmatch r1 s cs k with
      | Some res => Some res
      | None => rmatch r2 s cs k
      end
  | Star r1 =>
      (fix iter (fuel : nat) (s : list ascii) (cs : captures)
         : option captures :=
         match fuel with
         | O => k s cs
         | S fuel' =>
             match rmatch r1 s cs
                     (fun s' cs' =>
                        if (List.length s' <? List.length s)%nat
                        then iter fuel' s' cs' else None) with
             | Some res => Some res
             | None => k s cs
             end
         end) (List.length s) s cs
  | Capture i r1 =>
      rmatch r1 s cs
        (fun s' cs' =>
           let matched := firstn (List.length s - List.length s') s in
           k s' ((i, string_of_list_ascii matched) :: cs'))
  end.

(** [str.match(/^r$/)]: the captures of the match, or [None] for
    [null]. *)
Definition exec (r : regex) (str : string) : option captures :=
  rmatch r (list_ascii_of_string str) []
    (fun rest cs => match rest with [] => Some cs | _ => None end).

(** [/^r$/.test(str)] *)
Definition test (r : regex) (str : string) : bool :=
  match exec r str with Some _ => true | None => false end.

End RegExp.

Import RegExp.

(** [str.replace(/=/g, '')] *)
Definition remove_equals (s : string) : string :=
  string_of_list_ascii
    (filter (fun c => negb (Ascii.eqb c "="%char)) (list_ascii_of_string s)).

(* ================================================================== *)
(** * The standalone classifiers *)
(* ================================================================== *)

(** [[A-Za-z0-9+/]] *)
Definition base64_class (c : ascii) : bool :=
  range "A" "Z" c || range "a" "z" c || range "0" "9" c || one_of "+/" c.

(** [/^(?:[A-Za-z0-9+/]{4})*(?:[A-Za-z0-9+/]{2}==|[A-Za-z0-9+/]{3}=)?$/] *)
Definition base64Regex : regex :=
  Seq (Star (Repeat 4 (Class base64_class)))
      (Opt (Alt (Seq (Repeat 2 (Class base64_class)) (Lit "=="))
                (Seq (Repeat 3 (Class base64_class)) (Lit "=")))).

(** [static isBase64(str)] *)
Definition isBase64 (str : JsVal) : bool :=
  if js_not str || negb (typeof_is_string str) then false
  else
    match str with
    | JStr s =>
        match
          try_catch
            (if negb (test base64Regex s) then inr false
             else
               (let! decoded := atob s in
                let! encoded := btoa decoded in
                inr (String.eqb (remove_equals encoded) (remove_equals s)))%result)
            (fun _ => inr false)
        with
        | inr b => b
        | inl _ => false
        end
    | _ => false
    end.

(** [[a-zA-Z0-9]] *)
Definition alnum_class (c : ascii) : bool :=
  range "a" "z" c || range "A" "Z" c || range "0" "9" c.
(** [[a-zA-Z0-9\-.+]] *)
Definition subtype_class (c : ascii) : bool :=
  alnum_class c || one_of "-.+" c.
(** [[a-zA-Z0-9\-_=.+]] *)
Definition param_class (c : ascii) : bool :=
  alnum_class c || one_of "-_=.+" c.
(** The double quote, code unit 34. *)
Definition double_quote : ascii := ascii_of_N 34.
(** The negated class of the last group: every character but the
    double quote. *)
Definition not_quote_class (c : ascii) : bool :=
  negb (Ascii.eqb c double_quote).

(** The literal [dataURLRegex]: [^data:], group 1
    [[a-zA-Z0-9]+\/[a-zA-Z0-9\-.+]+], any number of group 2
    [;[a-zA-Z0-9\-_=.+]+], then [;base64,], group 3 (any number of
    characters of [not_quote_class]) and [$]. *)
Definition dataURLRegex : regex :=
  Seq (Lit "data:")
   (Seq (Capture 1 (Seq (Plus (Class alnum_class))
                    (Seq (Lit "/") (Plus (Class subtype_class)))))
    (Seq (Star (Capture 2 (Seq (Lit ";") (Plus (Class param_class)))))
     (Seq (Lit ";base64,")
          (Capture 3 (Star (Class not_quote_class)))))).

(** [static isBase64DataURL(str, mimeTypePrefix = null)]; the prefix is
    a string or [null]. *)
Definition isBase64DataURL (str : JsVal) (mimeTypePrefix : option string) : bool :=
  if js_not str || negb (typeof_is_string str) then false
  else
    match str with
    | JStr s =>
        if negb (startsWith s "data:") then false
        else
          match exec dataURLRegex s with
          | None => false
          | Some matches =>
              match capture 1 matches, capture 3 matches with
              | Some mimeType, Some base64String =>
                  if match mimeTypePrefix with
                     | Some p => negb (String.eqb p "")
                                 && negb (startsWith mimeType p)
                     | None => false
                     end
                  then false
                  else
                    match
                      try_catch
                        (let! decoded := atob base64String in
                         let! encoded := btoa decoded in
                         inr (String.eqb encoded base64String))%result
                        (fun _ => inr false)
                    with
                    | inr b => b
                    | inl _ => false
                    end
              | _, _ => false
              end
          end
    | _ => false
    end.

(* ================================================================== *)
(** * Collaborators *)
(* ================================================================== *)

(** [await sharp(buffer).metadata()] *)
Record Metadata : Type := mkMetadata {
  md_format : string;
  md_width : float;
  md_height : float
}.

Inductive Fit : Type := Cover | Contain | Fill | Inside | Outside.

(** The arguments of [image.resize(width, height, { fit, withoutEnlargement })]. *)
Record ResizeOptions : Type := mkResize {
  rz_width : JsVal;
  rz_height : JsVal;
  rz_fit : Fit;
  rz_withoutEnlargement : bool
}.

(** The arguments of [image.toFormat(format, { quality })]. *)
Record FormatOptions : Type := mkFormat {
  tf_format : JsVal;
  tf_quality : JsVal
}.

(** A [sharp] instance: its input and the operations queued on it. *)
Record Sharp : Type := mkSharp {
  sh_input : Buffer;
  sh_resize : option ResizeOptions;
  sh_toFormat : option FormatOptions
}.

(** [sharp(buffer)] *)
Definition sharp (buffer : Buffer) : Sharp :=
  {| sh_input := buffer; sh_resize := None; sh_toFormat := None |}.

(** [image.resize(width, height, options)] *)
Definition resize (image : Sharp) (r : ResizeOptions) : Sharp :=
  {| sh_input := sh_input image;
     sh_resize := Some r;
     sh_toFormat := sh_toFormat image |}.

(** [image.toFormat(format, options)] *)
Definition toFormat (image : Sharp) (f : FormatOptions) : Sharp :=
  {| sh_input := sh_input image;
     sh_resize := sh_resize image;
     sh_toFormat := Some f |}.

(** The response of [fetch]: its body and
    [response.headers.get('content-type')], [None] for [null]. *)
Record Response : Type := mkResponse {
  resp_body : Buffer;
  resp_content_type : option string
}.

(** What the code takes from its environment. *)
Class Env : Type := mkEnv {
  (** ECMAScript [StringToNumber] and [Number::toString] *)
  StringToNumber : string -> float;
  NumberToString : float -> string;
  (** [sharp(buffer).metadata()]; [inl] when the input does not decode *)
  sharp_metadata : Buffer -> Result Metadata;
  (** [image.toBuffer()] of an instance with its queued operations *)
  sharp_toBuffer : Sharp -> Result Buffer;
  (** [sharp]: the dimensions a queued resize gives an image *)
  sharp_resized : ResizeOptions -> float * float -> float * float;
  (** [fetch(url)], with the body read *)
  fetch : string -> Result Response;
  (** [fs.readFile(path)] *)
  readFile : string -> Result Buffer;
  (** [mime.lookup(path)], [None] for [false] *)
  mime_lookup : string -> option string
}.

(* ================================================================== *)
(** * The handler *)
(* ================================================================== *)

Record Options : Type := mkOptions {
  maxWidth : JsVal;
  maxHeight : JsVal;
  quality : JsVal;
  format : JsVal;
  skipImageOptimization : JsVal
}.

(** [{}] *)
Definition no_options : Options :=
  mkOptions JUndefined JUndefined JUndefined JUndefined JUndefined.

Record FileHandler : Type := mkFileHandler {
  options : Options;
  buffer : option Buffer;
  mimeType : option string
}.

(** What a [Readable] yields: a [Buffer], or a value that is not a
    [Uint8Array] (a string of a stream with an encoding, an object of a
    stream in object mode), kept as the text Node prints for it in the
    error of [Buffer.concat], such as [type string ('abc')]. *)
Inductive Chunk : Type :=
| ChunkBuffer (b : Buffer)
| ChunkOther (received : string).

(** What [processInput] accepts. *)
Inductive Input : Type :=
| InValue (v : JsVal)
    (** a primitive value; [typeof input === 'string'] for [JStr] *)
| InBuffer (b : Buffer)
    (** [input instanceof Buffer] *)
| InReadable (chunks : list Chunk) (failure : option Exn)
    (** [input instanceof Readable]: the chunks it yields, then its end
        or an error *)
| InBlob (bytes : Buffer) (type : string)
    (** [input instanceof Blob] *)
| InObject.
    (** any other object *)

(** The five shapes the source adapter recognises. *)
Definition recognized (input : Input) : bool :=
  match input with
  | InValue (JStr _) => true
  | InBuffer _ => true
  | InReadable _ _ => true
  | InBlob _ _ => true
  | _ => false
  end.

(** Methods run on [this]: they return or throw, and leave a handler. *)
Definition M (A : Type) : Type := FileHandler -> Result A * FileHandler.

Definition mret {A} (a : A) : M A := fun this => (inr a, this).

Definition mbind {A B} (c : M A) (k : A -> M B) : M B :=
  fun this =>
    match c this with
    | (inl e, this') => (inl e, this')
    | (inr a, this') => k a this'
    end.

(** [await] of a collaborator *)
Definition await {A} (c : Result A) : M A := fun this => (c, this).

Definition get_this : M FileHandler := fun this => (inr this, this).

(** [this.buffer = b] *)
Definition set_buffer (b : Buffer) : M unit :=
  fun this =>
    (inr tt, {| options := options this; buffer := Some b;
                mimeType := mimeType this |}).

(** [this.mimeType = m] *)
Definition set_mimeType (m : option string) : M unit :=
  fun this =>
    (inr tt, {| options := options this; buffer := buffer this;
                mimeType := m |}).

Declare Scope method_scope.
Delimit Scope method_scope with method.
Notation "x <- c ;; k" := (mbind c (fun x => k))
  (at level 61, c at next level, right associativity) : method_scope.
Notation "c ;; k" := (mbind c (fun _ => k))
  (at level 61, right associativity) : method_scope.

(** [constructor(options = {})] *)
Definition constructor (options : Options) : FileHandler :=
  {| options :=
       {| maxWidth := js_or (maxWidth options) (JNum 500%float);
          maxHeight := js_or (maxHeight options) (JNum 500%float);
          quality := js_or (quality options) (JNum 90%float);
          format := js_or (format options) (JStr "jpeg");
          skipImageOptimization :=
            js_or (skipImageOptimization options) (JBool false) |};
     buffer := None;
     mimeType := None |}.

(** [isImage()]: [this.mimeType?.startsWith('image/')] *)
Definition isImage (this : FileHandler) : JsVal :=
  match mimeType this with
  | None => JUndefined
  | Some m => JBool (startsWith m "image/")
  end.

(** The [TypeError] of [Buffer.concat] for an element that is not a
    [Uint8Array]. *)
Definition not_a_buffer (i : nat) (received : string) : Exn :=
  TypeError
    ("The " ++ String (ascii_of_N 34) "list["
       ++ NilEmpty.string_of_uint (Nat.to_uint i)
       ++ "]" ++ String (ascii_of_N 34)
            " argument must be an instance of Buffer or Uint8Array. Received "
       ++ received)%string.

(** [Buffer.concat(list)] from the index [i] on: the bytes of the
    elements in their order, or the error of the first element that is
    not a [Uint8Array]. *)
Fixpoint concat_from (i : nat) (list : list Chunk) : Result Buffer :=
  match list with
  | [] => inr []
  | ChunkBuffer b :: rest =>
      match concat_from (S i) rest with
      | inl e => inl e
      | inr tail => inr (b ++ tail)
      end
  | ChunkOther received :: _ => inl (not_a_buffer i received)
  end.

(** [Buffer.concat(chunks)] *)
Definition Buffer_concat (chunks : list Chunk) : Result Buffer :=
  concat_from 0 chunks.

(** [for await (const chunk of input) chunks.push(chunk)] *)
Definition drain (yielded : list Chunk) (failure : option Exn)
  : Result (list Chunk) :=
  let chunks := fold_left (fun chunks chunk => chunks ++ [chunk]) yielded [] in
  match failure with
  | Some e => inl e
  | None => inr chunks
  end.

Section Pipeline.

Context {E : Env}.

(** ECMAScript [ToNumber] *)
Definition ToNumber (v : JsVal) : float :=
  match v with
  | JUndefined => nan
  | JNull => 0%float
  | JBool true => 1%float
  | JBool false => 0%float
  | JNum f => f
  | JStr s => StringToNumber s
  end.

(** ECMAScript [ToString], as a template literal applies it *)
Definition ToString (v : JsVal) : string :=
  match v with
  | JUndefined => "undefined"
  | JNull => "null"
  | JBool true => "true"
  | JBool false => "false"
  | JNum f => NumberToString f
  | JStr s => s
  end.

(** [a > b]: two strings compare by code units, anything else as
    numbers, and a comparison with [NaN] is false. *)
Definition js_gt (a b : JsVal) : bool :=
  match a, b with
  | JStr x, JStr y => String.ltb y x
  | _, _ => PrimFloat.ltb (ToNumber b) (ToNumber a)
  end.

(** [static async detectMimeType(buffer)] *)
Definition detectMimeType (buffer : Buffer) : Result string :=
  try_catch
    (let! metadata := sharp_metadata buffer in
     inr ("image/" ++ md_format metadata)%string)%result
    (fun _ => inr "application/octet-stream").

(** The first part of [processInput]: the dispatch on the shape of
    the input, which gives [buffer] and [mimeType]. *)
Definition resolveInput (input : Input) : Result (Buffer * option string) :=
  match input with
  | InValue (JStr input) =>
      if startsWith input "http://" || startsWith input "https://" then
        (let! response := fetch input in
         inr (resp_body response, resp_content_type response))%result
      else
        (let! buffer := readFile input in
         inr (buffer,
              Some (str_or (mime_lookup input) "application/octet-stream")))%result
  | InBuffer input =>
      (let! mimeType := detectMimeType input in
       inr (input, Some mimeType))%result
  | InReadable yielded failure =>
      (let! chunks := drain yielded failure in
       let! buffer := Buffer_concat chunks in
       let! mimeType := detectMimeType buffer in
       inr (buffer, Some mimeType))%result
  | InBlob bytes type =>
      inr (bytes, Some (str_or (Some type) "application/octet-stream"))
  | _ => inl (Error "Unsupported input format")
  end.

(** Whether [optimizeImage] queues a resize. *)
Definition exceeds (o : Options) (metadata : Metadata) : bool :=
  js_gt (JNum (md_width metadata)) (maxWidth o)
  || js_gt (JNum (md_height metadata)) (maxHeight o).

(** The [sharp] instance [optimizeImage] builds before [toBuffer]. *)
Definition transcode (o : Options) (buffer : Buffer) (metadata : Metadata)
  : Sharp :=
  let image := sharp buffer in
  let image :=
    if exceeds o metadata
    then resize image
           {| rz_width := maxWidth o; rz_height := maxHeight o;
              rz_fit := Inside; rz_withoutEnlargement := true |}
    else image in
  toFormat image {| tf_format := format o; tf_quality := quality o |}.

(** [async optimizeImage(buffer)] *)
Definition optimizeImage (buffer : Buffer) : M unit :=
  (metadata <- await (sharp_metadata buffer) ;;
   this <- get_this ;;
   let img := transcode (options this) buffer metadata in
   out <- await (sharp_toBuffer img) ;;
   set_buffer out ;;
   this <- get_this ;;
   set_mimeType (Some ("image/" ++ ToString (format (options this)))%string)
  )%method.

(** The condition of the optimisation branch:
    [this.isImage() && !this.options.skipImageOptimization] *)
Definition optimizes (this : FileHandler) : bool :=
  ToBoolean (isImage this) && js_not (skipImageOptimization (options this)).

(** [async processInput(input)] *)
Definition processInput (input : Input) : M unit :=
  (resolved <- await (resolveInput input) ;;
   set_mimeType (snd resolved) ;;
   this <- get_this ;;
   if optimizes this
   then optimizeImage (fst resolved)
   else set_buffer (fst resolved))%method.

(** [static async handle(input, options = {})], for a call that no
    other call of [handle] overlaps.  The class keeps the handler in
    its static property [FileHandler.handler], the second component,
    and returns what that property holds after the [await]: in a call
    on its own that is the object [processInput] updated.  When calls
    overlap, the property holds the handler of the call that started
    last, and that is what every one of them returns; this definition
    does not cover them, and what is said of the handler of a call is
    said of [processInput]. *)
Definition handle (input : Input) (options : Options)
           (static_handler : option FileHandler)
  : Result FileHandler * option FileHandler :=
  let this := constructor options in
  match processInput input this with
  | (inl e, this') => (inl e, Some this')
  | (inr _, this') => (inr this', Some this')
  end.

(** The dimensions of the image [toBuffer] encodes: those of the
    input, changed by a queued resize only. *)
Definition output_dimensions (image : Sharp) (metadata : Metadata)
  : float * float :=
  match sh_resize image with
  | None => (md_width metadata, md_height metadata)
  | Some r => sharp_resized r (md_width metadata, md_height metadata)
  end.

End Pipeline.

(** [`${this.mimeType}`] for a string or [null] *)
Definition mimeType_text (m : option string) : string :=
  match m with
  | Some s => s
  | None => "null"
  end.

Definition null_buffer : Exn :=
  TypeError "Cannot read properties of null (reading 'toString')".

(** [toBase64()] *)
Definition toBase64 (this : FileHandler) : Result string :=
  match buffer this with
  | Some b => inr (Base64.encode b)
  | None => inl null_buffer
  end.

(** [toBase64URL()] *)
Definition toBase64URL (this : FileHandler) : Result string :=
  match buffer this with
  | Some b =>
      let base64 := Base64.encode b in
      inr ("data:" ++ mimeType_text (mimeType this) ++ ";base64," ++ base64)%string
  | None => inl null_buffer
  end.

(** [toBuffer()] *)
Definition toBuffer (this : FileHandler) : option Buffer := buffer this.

(* ================================================================== *)
(** * Reading a data URL back *)
(* ================================================================== *)


(* ================================================================== *)
(** * A small closed environment *)
(* ================================================================== *)

(** A concrete instance of [Env], on which the properties below are run:
    an image is a buffer that starts with the byte [0x50], a second
    byte [0x01] makes it 2000 by 2000 pixels, anything else is 100 by
    100; two URLs and two paths exist. *)
Module Demo.

Definition small_png : Buffer := [Byte.x50; Byte.x00; Byte.x2a].
Definition large_png : Buffer := [Byte.x50; Byte.x01; Byte.x2a].
Definition not_an_image : Buffer := [Byte.x25; Byte.x50; Byte.x44; Byte.x46].

Definition metadata (b : Buffer) : Result Metadata :=
  match b with
  | Byte.x50 :: Byte.x01 :: _ => inr (mkMetadata "png" 2000%float 2000%float)
  | Byte.x50 :: _ => inr (mkMetadata "png" 100%float 100%float)
  | _ => inl (Error "Input buffer contains unsupported image format")
  end.

Definition encode_image (image : Sharp) : Result Buffer :=
  match metadata (sh_input image) with
  | inl e => inl e
  | inr _ =>
      match sh_resize image with
      | Some _ => inr [Byte.x4a; Byte.x00]
      | None => inr (Byte.x4a :: sh_input image)
      end
  end.

Definition request (url : string) : Result Response :=
  if String.eqb url "https://example.com/logo"
  then inr (mkResponse small_png None)
  else if String.eqb url "http://example.com/photo"
  then inr (mkResponse not_an_image (Some "image/png"))
  else inl (Error "request failed").

Definition read (path : string) : Result Buffer :=
  if String.eqb path "notes.txt" then inr not_an_image
  else if String.eqb path "broken.png" then inr not_an_image
  else inl (Error "ENOENT: no such file or directory").

Definition lookup (path : string) : option string :=
  if String.eqb path "notes.txt" then Some "text/plain"
  else if String.eqb path "broken.png" then Some "image/png"
  else None.

Definition env : Env :=
  {| StringToNumber := fun _ => nan;
     NumberToString := fun _ => "NaN";
     sharp_metadata := metadata;
     sharp_toBuffer := encode_image;
     sharp_resized := fun _ _ => (500%float, 500%float);
     fetch := request;
     readFile := read;
     mime_lookup := lookup |}.

Definition webp_options : Options :=
  mkOptions (JNum 500%float) (JNum 500%float) (JNum 80%float) (JStr "webp")
            JUndefined.

Definition webp_options_resolved : Options :=
  mkOptions (JNum 500%float) (JNum 500%float) (JNum 80%float) (JStr "webp")
            (JBool false).

End Demo.

(** The handler after [this.mimeType = m] on a new object. *)
Definition typed (o : Options) (m : option string) : FileHandler :=
  {| options := options (constructor o); buffer := None; mimeType := m |}.

(** The handler that kept the resolved bytes. *)
Definition passed_through (o : Options) (bytes : Buffer) (m : option string)
  : FileHandler :=
  {| options := options (constructor o); buffer := Some bytes; mimeType := m |}.

(* ================================================================== *)
(** * The other exports *)
(* ================================================================== *)

(** The UTF-8 bytes of one code unit below 256. *)
Definition utf8_unit (c : ascii) : list Byte.byte :=
  let n := Z.of_N (N_of_ascii c) in
  if (n <? 128)%Z then [byte_of_Z n]
  else [byte_of_Z (192 + n / 64); byte_of_Z (128 + n mod 64)].

(** [Buffer.from(str)], with the default encoding *)
Definition Buffer_from_string (s : string) : Buffer :=
  flat_map utf8_unit (list_ascii_of_string s).

(** [toBase64Buffer()] *)
Definition toBase64Buffer (this : FileHandler) : Result Buffer :=
  match buffer this with
  | Some b => inr (Buffer_from_string (Base64.encode b))
  | None => inl null_buffer
  end.

Definition not_iterable : Exn :=
  TypeError
    ("The " ++ String double_quote "iterable"
       ++ String double_quote
            " argument must be an instance of Iterable. Received null")%string.

(** [toStream()]: [Readable.from(this.buffer)] pushes a buffer as one
    chunk and ends. *)
Definition toStream (this : FileHandler) : Result Input :=
  match buffer this with
  | Some b => inr (InReadable [ChunkBuffer b] None)
  | None => inl not_iterable
  end.

(** A [Blob]: its bytes and its [type]. *)
Record Blob : Type := mkBlob {
  blob_bytes : Buffer;
  blob_type : string
}.

(** The characters a blob type may hold, U+0020 to U+007E. *)
Definition printable (c : ascii) : bool := range " " "~" c.

(** ASCII lower case *)
Definition lower (c : ascii) : ascii :=
  if range "A" "Z" c then ascii_of_N (N_of_ascii c + 32) else c.

(** The [type] a [Blob] keeps of the [type] option: empty when a
    character is outside U+0020 to U+007E, in lower case otherwise. *)
Definition Blob_type (type : string) : string :=
  let chars := list_ascii_of_string type in
  if forallb printable chars
  then string_of_list_ascii (map lower chars)
  else "".

(** [new Blob([part], { type })]: a part that is not a buffer is
    converted to a string, and so is the type. *)
Definition Blob_new (part : option Buffer) (type : option string) : Blob :=
  {| blob_bytes :=
       match part with
       | Some b => b
       | None => Buffer_from_string "null"
       end;
     blob_type := Blob_type (mimeType_text type) |}.

(** [toBlob()] *)
Definition toBlob (this : FileHandler) : Blob :=
  Blob_new (buffer this) (mimeType this).

(** A blob as the input of [processInput]. *)
Definition InBlob_of (b : Blob) : Input := InBlob (blob_bytes b) (blob_type b).

(** A type that [Blob] keeps as it is. *)
Definition plain_type (m : string) : bool :=
  forallb (fun c => printable c && negb (range "A" "Z" c))
          (list_ascii_of_string m).

(* ================================================================== *)
(** * What the two regular expressions accept *)
(* ================================================================== *)

(** The loop [rmatch] runs for [Star r1]. *)
Definition star_loop (r1 : regex)
           (k : list ascii -> captures -> option captures)
  : nat -> list ascii -> captures -> option captures :=
  fix iter (fuel : nat) (s : list ascii) (cs : captures) : option captures :=
    match fuel with
    | O => k s cs
    | S fuel' =>
        match rmatch r1 s cs
                (fun s' cs' =>
                   if (List.length s' <? List.length s)%nat
                   then iter fuel' s' cs' else None) with
        | Some res => Some res
        | None => k s cs
        end
    end.

(** What a greedy [*] over a character class tries once it has taken
    [taken]: the continuation after all of it, then after one
    character less, and so on. *)
Fixpoint backtrack (k : list ascii -> captures -> option captures)
         (taken rest : list ascii) (cs : captures) : option captures :=
  match taken with
  | [] => k rest cs
  | _ :: taken' =>
      match backtrack k taken' rest cs with
      | Some res => Some res
      | None => k (taken ++ rest) cs
      end
  end.

(** Text in groups of four characters of the base64 alphabet, the last
    group possibly ending in one or two padding characters. *)
Inductive padded : list ascii -> Prop :=
| padded_nil : padded []
| padded_two c1 c2 :
    base64_class c1 = true -> base64_class c2 = true ->
    padded [c1; c2; Base64.pad; Base64.pad]
| padded_three c1 c2 c3 :
    base64_class c1 = true -> base64_class c2 = true ->
    base64_class c3 = true ->
    padded [c1; c2; c3; Base64.pad]
| padded_group c1 c2 c3 c4 l :
    base64_class c1 = true -> base64_class c2 = true ->
    base64_class c3 = true -> base64_class c4 = true ->
    padded l -> padded (c1 :: c2 :: c3 :: c4 :: l).

(** The padding that completes [n] characters to a group of four. *)
Definition pads_for (n : nat) : list ascii :=
  match (n mod 4)%nat with
  | 2%nat => [Base64.pad; Base64.pad]
  | 3%nat => [Base64.pad]
  | _ => []
  end.

(** The end of the subject, [$]. *)
Definition at_end (rest : list ascii) (cs : captures) : option captures :=
  match rest with [] => Some cs | _ => None end.

(** The optional last group of [base64Regex]. *)
Definition last_group : regex :=
  Opt (Alt (Seq (Repeat 2 (Class base64_class)) (Lit "=="))
           (Seq (Repeat 3 (Class base64_class)) (Lit "="))).

(** The parts of [dataURLRegex]. *)
Definition type_group : regex :=
  Capture 1 (Seq (Plus (Class alnum_class))
                 (Seq (Lit "/") (Plus (Class subtype_class)))).
Definition param_group : regex :=
  Capture 2 (Seq (Lit ";") (Plus (Class param_class))).
Definition payload_part : regex :=
  Seq (Lit ";base64,") (Capture 3 (Star (Class not_quote_class))).

(** A non-empty string of characters of one class. *)
Definition is_token (p : ascii -> bool) (s : string) : bool :=
  negb (String.eqb s "") && forallb p (list_ascii_of_string s).

(** The strings a regular expression matches. *)
Inductive matches : regex -> list ascii -> Prop :=
| matches_eps : matches Eps []
| matches_class p c : p c = true -> matches (Class p) [c]
| matches_seq r1 r2 l1 l2 :
    matches r1 l1 -> matches r2 l2 -> matches (Seq r1 r2) (l1 ++ l2)
| matches_alt_l r1 r2 l : matches r1 l -> matches (Alt r1 r2) l
| matches_alt_r r1 r2 l : matches r2 l -> matches (Alt r1 r2) l
| matches_star_nil r : matches (Star r) []
| matches_star_cons r l1 l2 :
    matches r l1 -> matches (Star r) l2 -> matches (Star r) (l1 ++ l2)
| matches_capture i r l : matches r l -> matches (Capture i r) l.

(** The indices of the groups of a regular expression. *)
Fixpoint groups (r : regex) : list nat :=
  match r with
  | Eps => []
  | Class _ => []
  | Seq r1 r2 => groups r1 ++ groups r2
  | Alt r1 r2 => groups r1 ++ groups r2
  | Star r1 => groups r1
  | Capture i r1 => i :: groups r1
  end.

(** A second environment: no network, one file of unknown type. *)
Module Offline.

Definition read (path : string) : Result Buffer :=
  if String.eqb path "unknown-file" then inr Demo.not_an_image
  else inl (Error "ENOENT: no such file or directory").

Definition env : Env :=
  {| StringToNumber := fun _ => nan;
     NumberToString := fun _ => "NaN";
     sharp_metadata := Demo.metadata;
     sharp_toBuffer := Demo.encode_image;
     sharp_resized := fun _ _ => (500%float, 500%float);
     fetch := fun _ => inl (Error "request failed");
     readFile := read;
     mime_lookup := fun _ => None |}.

End Offline.

(* ================================================================== *)
(** * Runs of the definitions *)
(* ================================================================== *)

Example encode_hello :
  Base64.encode (list_byte_of_string "hello") = "aGVsbG8=".
Proof. reflexivity. Qed.

Example atob_hello : atob "aGVsbG8=" = inr "hello".
Proof. reflexivity. Qed.

Example atob_hello_unpadded : atob "aGVsbG8" = inr "hello".
Proof. reflexivity. Qed.

Example atob_bad_length : atob "aGVsb" = inl InvalidCharacterError.
Proof. reflexivity. Qed.

Example isBase64_empty : isBase64 (JStr "") = false.
Proof. reflexivity. Qed.
Example isBase64_number : isBase64 (JNum 12%float) = false.
Proof. reflexivity. Qed.
Example isBase64_plain : isBase64 (JStr "aGVsbG8h") = true.
Proof. vm_compute. reflexivity. Qed.
Example dataURL_captures :
  option_map (fun m => (capture 1 m, capture 3 m))
    (exec dataURLRegex "data:image/png;charset=x;base64,aGVsbG8=")
  = Some (Some "image/png", Some "aGVsbG8=").
Proof. vm_compute. reflexivity. Qed.
Example isBase64DataURL_nofilter :
  isBase64DataURL (JStr "data:text/plain;base64,aGVsbG8=") None = true.
Proof. vm_compute. reflexivity. Qed.

(** [handle(<2000x2000 PNG bytes>, {maxWidth: 500, maxHeight: 500,
    format: 'webp', quality: 80})] in the small environment: a resize
    is queued and the type becomes [image/webp]. *)
Example handle_large_png :
  fst (@handle Demo.env (InBuffer Demo.large_png) Demo.webp_options None)
  = inr {| options := Demo.webp_options_resolved;
           buffer := Some [Byte.x4a; Byte.x00];
           mimeType := Some "image/webp" |}.
Proof. reflexivity. Qed.

Example transcode_large_png :
  sh_resize (@transcode Demo.env Demo.webp_options_resolved Demo.large_png
               (mkMetadata "png" 2000%float 2000%float))
  = Some (mkResize (JNum 500%float) (JNum 500%float) Inside true).
Proof. reflexivity. Qed.

(** [handle(<non-image binary>, {})] *)
Example handle_non_image :
  fst (@handle Demo.env (InBuffer Demo.not_an_image) no_options None)
  = inr (passed_through no_options Demo.not_an_image
           (Some "application/octet-stream")).
Proof. reflexivity. Qed.

(** A stream is drained in order. *)
Example handle_stream :
  fst (@handle Demo.env
         (InReadable [ChunkBuffer [Byte.x25; Byte.x50];
                      ChunkBuffer [Byte.x44]; ChunkBuffer [Byte.x46]] None)
         no_options None)
  = inr (passed_through no_options Demo.not_an_image
           (Some "application/octet-stream")).
Proof. reflexivity. Qed.

(** A stream that yields a string after a buffer: [Buffer.concat]
    throws for [list[1]]. *)
Example stream_of_strings :
  @processInput Demo.env
    (InReadable [ChunkBuffer [Byte.x25]; ChunkOther "type string ('PDF')"]
       None)
    (constructor no_options)
  = (inl (TypeError
            ("The " ++ String double_quote "list[1]"
               ++ String double_quote
                    " argument must be an instance of Buffer or Uint8Array. Received type string ('PDF')")%string),
     constructor no_options).
Proof. reflexivity. Qed.

(** With [skipImageOptimization: true] an image is kept as it is. *)
Example handle_skip :
  fst (@handle Demo.env (InBuffer Demo.large_png)
         (mkOptions JUndefined JUndefined JUndefined JUndefined (JBool true))
         None)
  = inr (passed_through
           (mkOptions JUndefined JUndefined JUndefined JUndefined (JBool true))
           Demo.large_png (Some "image/png")).
Proof. reflexivity. Qed.

(* ================================================================== *)
(** * Base64 round trip *)
(* ================================================================== *)

Section Base64Facts.

Import Base64.

Lemma list_ind3 (A : Type) (P : list A -> Prop) :
    P [] ->
    (forall a, P [a]) ->
    (forall a b, P [a; b]) ->
    (forall a b c l, P l -> P (a :: b :: c :: l)) ->
    forall l, P l.
Proof.
    intros H0 H1 H2 H3.
    fix IH 1.
    intros [|a [|b [|c l]]];
      [exact H0 | apply H1 | apply H2 | apply H3; apply IH].
Qed.

Lemma byte_to_Z_range (b : Byte.byte) : (0 <= byte_to_Z b < 256)%Z.
Proof.
    unfold byte_to_Z. pose proof (Byte.to_N_bounded b). lia.
Qed.

Lemma byte_of_to_Z (b : Byte.byte) : byte_of_Z (byte_to_Z b) = b.
Proof.
    unfold byte_of_Z, byte_to_Z. rewrite N2Z.id.
    rewrite <- ascii_of_byte_via_N. apply byte_of_ascii_of_byte.
Qed.

Lemma alphabet_ok : forallb char_ok (seq 0 64) = true.
Proof. vm_compute. reflexivity. Qed.

Lemma char_of_ok (z : Z) :
    sextet z ->
    value_of (char_of z) = Some z
    /\ is_ascii_whitespace (char_of z) = false
    /\ Ascii.eqb (char_of z) pad = false.
Proof.
    intros Hz.
    pose proof alphabet_ok as H.
    rewrite forallb_forall in H.
    specialize (H (Z.to_nat z)).
    assert (Hin : In (Z.to_nat z) (seq 0 64)).
    { apply in_seq. unfold sextet in Hz. lia. }
    apply H in Hin. unfold char_ok in Hin.
    rewrite Z2Nat.id in Hin by (unfold sextet in Hz; lia).
    apply andb_prop in Hin. destruct Hin as [Hin Hpad].
    apply andb_prop in Hin. destruct Hin as [Hval Hws].
    destruct (value_of (char_of z)) as [v|]; [|discriminate].
    apply Z.eqb_eq in Hval. subst v.
    apply negb_true_iff in Hws, Hpad. auto.
Qed.

Lemma sextets_range (bs : list Byte.byte) : Forall sextet (sextets bs).
Proof.
    induction bs as [|a|a b|a b c l IH] using list_ind3; simpl.
    - constructor.
    - pose proof (byte_to_Z_range a).
      repeat constructor; unfold sextet;
        try (apply Z.mod_pos_bound; lia);
        try (apply Z.div_pos; lia);
        try (apply Z.div_lt_upper_bound; lia).
    - pose proof (byte_to_Z_range a). pose proof (byte_to_Z_range b).
      repeat constructor; unfold sextet;
        try (apply Z.mod_pos_bound; lia);
        try (apply Z.div_pos; lia);
        try (apply Z.div_lt_upper_bound; lia).
    - pose proof (byte_to_Z_range a). pose proof (byte_to_Z_range b).
      pose proof (byte_to_Z_range c).
      repeat (constructor; [unfold sextet;
        try (apply Z.mod_pos_bound; lia);
        (split; [apply Z.div_pos; lia | apply Z.div_lt_upper_bound; lia])|]).
      exact IH.
Qed.

Lemma byte_of_Z_eq (b : Byte.byte) (z : Z) :
    z = byte_to_Z b -> byte_of_Z z = b.
Proof. intros ->. apply byte_of_to_Z. Qed.

Ltac byte_arith :=
    apply byte_of_Z_eq;
    repeat match goal with
           | |- context [byte_to_Z ?b] =>
               let x := fresh "x" in
               let Hx := fresh "Hx" in
               pose proof (byte_to_Z_range b) as Hx;
               remember (byte_to_Z b) as x eqn:Heq; clear Heq
           end;
    Z.div_mod_to_equations; lia.

Lemma bytes_of_sextets (bs : list Byte.byte) : bytes_of (sextets bs) = bs.
Proof.
    induction bs as [|a|a b|a b c l IH] using list_ind3.
    - reflexivity.
    - cbn [sextets bytes_of]. f_equal. byte_arith.
    - cbn [sextets bytes_of]. f_equal; [|f_equal]; byte_arith.
    - cbn [sextets].
      set (n := (byte_to_Z a * 65536 + byte_to_Z b * 256 + byte_to_Z c)%Z).
      cbn [bytes_of]. rewrite IH.
      assert (Hn : ((((n / 262144 * 64 + (n / 4096) mod 64) * 64
                       + (n / 64) mod 64) * 64 + n mod 64) = n)%Z).
      { pose proof (byte_to_Z_range a). pose proof (byte_to_Z_range b).
        pose proof (byte_to_Z_range c).
        assert (0 <= n)%Z by (subst n; lia).
        clearbody n. Z.div_mod_to_equations. lia. }
      rewrite Hn. subst n.
      f_equal; [|f_equal; [|f_equal]]; byte_arith.
Qed.

Lemma values_of_chars (vs : list Z) :
  Forall sextet vs -> values_of (map char_of vs) = Some vs.
Proof.
  induction 1 as [|v vs Hv _ IH]; simpl.
  - reflexivity.
  - destruct (char_of_ok Hv) as (-> & _ & _). rewrite IH. reflexivity.
Qed.

Lemma chars_not_pad (vs : list Z) :
  Forall sextet vs ->
  Forall (fun c => Ascii.eqb c pad = false) (map char_of vs).
Proof.
  induction 1 as [|v vs Hv _ IH]; simpl; constructor; auto.
  apply (char_of_ok Hv).
Qed.

Lemma padding_shape (bs : list Byte.byte) :
  padding bs = [] \/ padding bs = [pad] \/ padding bs = [pad; pad].
Proof.
  induction bs as [|a|a b|a b c l IH] using list_ind3; simpl; auto.
Qed.

Lemma filter_whitespace_encoded (vs : list Z) (bs : list Byte.byte) :
  Forall sextet vs ->
  filter (fun c => negb (is_ascii_whitespace c)) (map char_of vs ++ padding bs)
  = map char_of vs ++ padding bs.
Proof.
  intros Hvs. rewrite filter_app. f_equal.
  - induction Hvs as [|v vs Hv _ IH]; simpl.
    + reflexivity.
    + destruct (char_of_ok Hv) as (_ & -> & _). simpl. now rewrite IH.
  - destruct (padding_shape bs) as [-> | [-> | ->]]; reflexivity.
Qed.

(** The encoded text is a whole number of four-character groups, and
    without its padding its length is never 1 modulo 4. *)
Lemma encoded_lengths (bs : list Byte.byte) :
  (exists k, List.length (sextets bs) + List.length (padding bs) = 4 * k)%nat
  /\ (exists k r, List.length (sextets bs) = 4 * k + r
                  /\ (r = 0 \/ r = 2 \/ r = 3))%nat.
Proof.
  induction bs as [|a|a b|a b c l IH] using list_ind3.
  - split; [exists 0%nat | exists 0%nat, 0%nat]; simpl; auto.
  - split; [exists 1%nat | exists 0%nat, 2%nat]; simpl; auto.
  - split; [exists 1%nat | exists 0%nat, 3%nat]; simpl; auto.
  - destruct IH as [[k Hk] [k' [r [Hr Hr']]]].
    split; [exists (S k) | exists (S k'), r]; cbn [sextets padding List.length];
      [lia | split; [lia | exact Hr']].
Qed.

Lemma strip_padding_padded (l p : list ascii) :
  (List.length (l ++ p) mod 4 = 0)%nat ->
  Forall (fun c => Ascii.eqb c pad = false) l ->
  p = [] \/ p = [pad] \/ p = [pad; pad] ->
  strip_padding (l ++ p) = l.
Proof.
  intros Hlen Hl Hp. unfold strip_padding.
  rewrite Hlen. cbn [Nat.eqb].
  assert (Hrev : Forall (fun c => Ascii.eqb c pad = false) (rev l)).
  { apply Forall_forall. intros c Hc. apply in_rev in Hc.
    rewrite Forall_forall in Hl. auto. }
  destruct Hp as [-> | [-> | ->]].
  - rewrite app_nil_r.
    destruct (rev l) as [|p1 [|p2 r]] eqn:E; auto;
      inversion Hrev as [|? ? H1 ?]; subst; now rewrite H1.
  - rewrite rev_app_distr. cbn [rev app].
    destruct (rev l) as [|p2 r] eqn:E.
    + cbn. apply (f_equal (@rev ascii)) in E.
      rewrite rev_involutive in E. now subst l.
    + inversion Hrev as [|? ? H1 ?]; subst.
      replace (Ascii.eqb pad pad) with true by reflexivity.
      rewrite H1. change (rev r ++ [p2]) with (rev (p2 :: r)).
      rewrite <- E. apply rev_involutive.
  - rewrite rev_app_distr. cbn [rev app].
    replace (Ascii.eqb pad pad) with true by reflexivity.
    apply rev_involutive.
Qed.

(** Decoding what [encode] produced gives the bytes back. *)
Lemma decode_encode (bs : list Byte.byte) : decode (encode bs) = Some bs.
Proof.
  unfold decode, encode.
  rewrite list_ascii_of_string_of_list_ascii.
  pose proof (sextets_range bs) as Hr.
  rewrite (filter_whitespace_encoded bs Hr).
  destruct (encoded_lengths bs) as [[k Hk] [k' [r [Hlen Hrem]]]].
  rewrite strip_padding_padded.
  - rewrite length_map, Hlen.
    replace (4 * k' + r)%nat with (r + k' * 4)%nat by lia.
    rewrite Nat.Div0.mod_add.
    rewrite (values_of_chars Hr). cbn [option_map].
    rewrite bytes_of_sextets.
    destruct Hrem as [-> | [-> | ->]]; reflexivity.
  - rewrite length_app, length_map, Hk.
    rewrite Nat.mul_comm. apply Nat.Div0.mod_mul.
  - apply chars_not_pad, Hr.
  - apply padding_shape.
Qed.

End Base64Facts.

(* ================================================================== *)
(** * Properties of the pipeline *)
(* ================================================================== *)

Unset Implicit Arguments.

Section PipelineFacts.

Context {E : Env}.

(** After the constructor, [skipImageOptimization] is a truthy value or
    the default [false], so [!skipImageOptimization] holds exactly when
    the field is [false]. *)
Lemma skip_resolved (o : Options) :
  js_not (skipImageOptimization (options (constructor o))) = true
  <-> skipImageOptimization (options (constructor o)) = JBool false.
Proof.
  cbn [constructor options skipImageOptimization]. unfold js_or, js_not.
  destruct (ToBoolean (skipImageOptimization o)) eqn:T.
  - rewrite T. split; [discriminate|].
    intros H. rewrite H in T. discriminate.
  - split; reflexivity.
Qed.

Lemma optimizes_typed (o : Options) (m : option string) :
  optimizes (typed o m) = true
  <-> (exists s, m = Some s /\ startsWith s "image/" = true)
      /\ skipImageOptimization (options (constructor o)) = JBool false.
Proof.
  unfold optimizes. rewrite andb_true_iff.
  change (options (typed o m)) with (options (constructor o)).
  rewrite skip_resolved.
  unfold isImage. cbn [typed mimeType].
  destruct m as [s|]; cbn [ToBoolean].
  - split.
    + intros [H1 H2]. split; [exists s; auto | exact H2].
    + intros [[s' [Hs H1]] H2]. inversion Hs; subst. auto.
  - split.
    + intros [H _]. discriminate.
    + intros [[s' [Hs _]] _]. discriminate.
Qed.

Lemma processInput_resolved (input : Input) (o : Options)
      (bytes : Buffer) (m : option string) :
  resolveInput input = inr (bytes, m) ->
  processInput input (constructor o)
  = if optimizes (typed o m)
    then optimizeImage bytes (typed o m)
    else (inr tt, passed_through o bytes m).
Proof.
  intros H. unfold processInput, mbind, await. rewrite H.
  cbn [set_mimeType get_this fst snd].
  change {| options := options (constructor o);
            buffer := buffer (constructor o); mimeType := m |}
    with (typed o m).
  destruct (optimizes (typed o m)); reflexivity.
Qed.

Lemma processInput_unresolved (input : Input) (this : FileHandler) (e : Exn) :
  resolveInput input = inl e ->
  processInput input this = (inl e, this).
Proof.
  intros H. unfold processInput, mbind, await. rewrite H. reflexivity.
Qed.

Lemma optimizeImage_run (bytes : Buffer) (this : FileHandler) :
  optimizeImage bytes this
  = match sharp_metadata bytes with
    | inl e => (inl e, this)
    | inr metadata =>
        match sharp_toBuffer (transcode (options this) bytes metadata) with
        | inl e => (inl e, this)
        | inr out =>
            (inr tt,
             {| options := options this;
                buffer := Some out;
                mimeType :=
                  Some ("image/" ++ ToString (format (options this)))%string |})
        end
    end.
Proof.
  unfold optimizeImage, mbind, await.
  destruct (sharp_metadata bytes) as [e|metadata]; [reflexivity|].
  cbn [get_this].
  destruct (sharp_toBuffer (transcode (options this) bytes metadata));
    reflexivity.
Qed.

Lemma handle_run (input : Input) (o : Options) (st : option FileHandler) :
  fst (handle input o st)
  = match processInput input (constructor o) with
    | (inl e, _) => inl e
    | (inr _, this) => inr this
    end.
Proof.
  unfold handle.
  destruct (processInput input (constructor o)) as [[e|u] this]; reflexivity.
Qed.

(** Draining a stream that ends normally keeps every chunk, in the
    order of arrival. *)
Lemma drain_all (chunks : list Chunk) : drain chunks None = inr chunks.
Proof.
  unfold drain. f_equal.
  assert (G : forall acc : list Chunk,
             fold_left (fun cs c => cs ++ [c]) chunks acc = acc ++ chunks).
  { induction chunks as [|c chunks IH]; intros acc; cbn [fold_left].
    - now rewrite app_nil_r.
    - rewrite IH, <- app_assoc. reflexivity. }
  apply (G []).
Qed.

Lemma concat_from_buffers (buffers : list Buffer) (i : nat) :
  concat_from i (map ChunkBuffer buffers) = inr (List.concat buffers).
Proof.
  revert i. induction buffers as [|b buffers IH]; intros i; cbn;
    [reflexivity | now rewrite IH].
Qed.

(** The type of a buffer or of a drained stream of buffers is the
    sniffed one. *)
Lemma resolveInput_sniffs (buffers : list Buffer) :
  resolveInput (InReadable (map ChunkBuffer buffers) None)
  = resolveInput (InBuffer (List.concat buffers)).
Proof.
  cbn [resolveInput]. rewrite drain_all. cbn [rbind]. unfold Buffer_concat.
  rewrite concat_from_buffers. reflexivity.
Qed.

(** A handler on which [processInput] completed holds bytes. *)
Lemma processInput_completed (input : Input) (o : Options)
      (this : FileHandler) :
  processInput input (constructor o) = (inr tt, this) ->
  exists bytes, buffer this = Some bytes.
Proof.
  destruct (resolveInput input) as [e|[bytes m]] eqn:R.
  - rewrite (processInput_unresolved _ _ _ R). discriminate.
  - rewrite (processInput_resolved _ o _ _ R).
    destruct (optimizes (typed o m)).
    + rewrite optimizeImage_run.
      destruct (sharp_metadata bytes) as [e|md]; [discriminate|].
      destruct (sharp_toBuffer _) as [e|out]; [discriminate|].
      intros H. inversion H; subst. cbn. eauto.
    + intros H. inversion H; subst. cbn. eauto.
Qed.

(** C1. The optimisation branch of [processInput] is taken exactly when
    the resolved [mimeType] starts with [image/] and the configured
    [skipImageOptimization] is [false]; in every other case the handler
    keeps the resolved bytes and the resolved type unchanged, so
    [toBuffer()] is the resolved buffer. *)
Theorem optimization_branch (input : Input) (o : Options)
        (bytes : Buffer) (m : option string) :
  resolveInput input = inr (bytes, m) ->
  (optimizes (typed o m) = true
   <-> (exists s, m = Some s /\ startsWith s "image/" = true)
       /\ skipImageOptimization (options (constructor o)) = JBool false)
  /\ (optimizes (typed o m) = true ->
      processInput input (constructor o) = optimizeImage bytes (typed o m))
  /\ (optimizes (typed o m) = false ->
      processInput input (constructor o) = (inr tt, passed_through o bytes m)
      /\ forall st,
           fst (handle input o st) = inr (passed_through o bytes m)
           /\ toBuffer (passed_through o bytes m) = Some bytes
           /\ mimeType (passed_through o bytes m) = m).
Proof.
  intros R. split; [apply optimizes_typed|].
  split; intros Hopt.
  - rewrite (processInput_resolved _ o _ _ R), Hopt. reflexivity.
  - assert (P : processInput input (constructor o)
                = (inr tt, passed_through o bytes m)).
    { rewrite (processInput_resolved _ o _ _ R), Hopt. reflexivity. }
    split; [exact P|].
    intros st. rewrite handle_run, P. auto.
Qed.

End PipelineFacts.

(** [optimization_branch] on the text file of the small environment. *)
Lemma optimization_branch_witness :
  @resolveInput Demo.env (InValue (JStr "notes.txt"))
  = inr (Demo.not_an_image, Some "text/plain")
  /\ optimizes (typed no_options (Some "text/plain")) = false
  /\ fst (@handle Demo.env (InValue (JStr "notes.txt")) no_options None)
     = inr (passed_through no_options Demo.not_an_image (Some "text/plain")).
Proof.
  assert (R : @resolveInput Demo.env (InValue (JStr "notes.txt"))
              = inr (Demo.not_an_image, Some "text/plain"))
    by reflexivity.
  split; [exact R|].
  split; [reflexivity|].
  destruct (@optimization_branch Demo.env _ no_options _ _ R) as (_ & _ & H).
  apply H. reflexivity.
Defined.

Section TranscodeFacts.

Context {E : Env}.

(** C2. [optimizeImage] queues a resize only when the decoded width is
    greater than [maxWidth] or the decoded height greater than
    [maxHeight]; the resize it queues is [fit: 'inside'] with
    [withoutEnlargement: true] on the two bounds; when neither bound is
    exceeded nothing is queued and the encoded image has the dimensions
    of the original, and the conversion to [format] at [quality] is
    queued in both cases.  The instance so built is the one whose
    [toBuffer()] becomes the bytes of the handler. *)
Theorem resize_decision (c : Options) (bytes : Buffer) (metadata : Metadata) :
  let image := transcode c bytes metadata in
  let width := JNum (md_width metadata) in
  let height := JNum (md_height metadata) in
  (sh_resize image <> None
   <-> js_gt width (maxWidth c) = true \/ js_gt height (maxHeight c) = true)
  /\ (forall r, sh_resize image = Some r ->
        r = mkResize (maxWidth c) (maxHeight c) Inside true)
  /\ (js_gt width (maxWidth c) = false ->
      js_gt height (maxHeight c) = false ->
      sh_resize image = None
      /\ output_dimensions image metadata
         = (md_width metadata, md_height metadata))
  /\ sh_toFormat image = Some (mkFormat (format c) (quality c))
  /\ sh_input image = bytes
  /\ (forall bw bh, maxWidth c = JNum bw -> maxHeight c = JNum bh ->
        exceeds c metadata
        = PrimFloat.ltb bw (md_width metadata)
          || PrimFloat.ltb bh (md_height metadata))
  /\ (forall this out,
        options this = c ->
        sharp_metadata bytes = inr metadata ->
        sharp_toBuffer image = inr out ->
        exists this',
          optimizeImage bytes this = (inr tt, this')
          /\ buffer this' = Some out).
Proof.
  cbv zeta. unfold transcode, exceeds.
  destruct (js_gt (JNum (md_width metadata)) (maxWidth c)) eqn:W;
    destruct (js_gt (JNum (md_height metadata)) (maxHeight c)) eqn:H;
    cbn [orb resize toFormat sharp sh_resize sh_toFormat sh_input].
  all: repeat split; try discriminate; try tauto; auto.
  all: try (intros r Hr; inversion Hr; reflexivity).
  all: try (intros [? | ?]; discriminate).
  all: try (intros bw bh Hw Hh; rewrite Hw, Hh in *;
            cbn [js_gt ToNumber] in *; rewrite W, H; reflexivity).
  all: intros this out Hc Hmd Hout; rewrite optimizeImage_run, Hmd;
    unfold transcode, exceeds; rewrite Hc, W, H;
    cbn [orb resize toFormat sharp sh_resize sh_toFormat sh_input];
    rewrite Hout; eexists; split; reflexivity.
Qed.

(** C3. Whenever the optimisation branch runs to completion, the bytes
    of the handler are the output of an instance on which the
    conversion to [format] at [quality] was queued, and [mimeType] is
    rewritten to [image/] followed by the configured format, whatever
    the format of the source was. *)
Theorem mimeType_rewritten (input : Input) (o : Options)
        (bytes : Buffer) (m : option string) (this' : FileHandler) :
  resolveInput input = inr (bytes, m) ->
  optimizes (typed o m) = true ->
  processInput input (constructor o) = (inr tt, this') ->
  let c := options (constructor o) in
  mimeType this' = Some ("image/" ++ ToString (format c))%string
  /\ (forall f, format c = JStr f ->
        mimeType this' = Some ("image/" ++ f)%string)
  /\ exists metadata out,
       sharp_metadata bytes = inr metadata
       /\ sh_toFormat (transcode c bytes metadata)
          = Some (mkFormat (format c) (quality c))
       /\ sharp_toBuffer (transcode c bytes metadata) = inr out
       /\ buffer this' = Some out.
Proof.
  intros R Hopt. rewrite (processInput_resolved _ o _ _ R), Hopt.
  rewrite optimizeImage_run.
  change (options (typed o m)) with (options (constructor o)).
  destruct (sharp_metadata bytes) as [e|metadata]; [discriminate|].
  destruct (sharp_toBuffer _) as [e|out] eqn:T; [discriminate|].
  intros H. apply (f_equal snd) in H. cbn [snd] in H. subst this'.
  cbv zeta. cbn [mimeType buffer].
  split; [reflexivity|]. split.
  - intros f Hf. rewrite Hf. reflexivity.
  - exists metadata, out. repeat split; auto.
Qed.

(** C5. [detectMimeType] never throws: it returns [image/] followed by
    the detected format when [sharp] reads the metadata of the buffer,
    and [application/octet-stream] for every other buffer. *)
Theorem detectMimeType_total (bytes : Buffer) :
  detectMimeType bytes
  = inr match sharp_metadata bytes with
        | inr metadata => ("image/" ++ md_format metadata)%string
        | inl _ => "application/octet-stream"
        end.
Proof.
  unfold detectMimeType, try_catch, rbind.
  destruct (sharp_metadata bytes); reflexivity.
Qed.

(** C6. An input of none of the five recognised shapes makes
    [processInput] throw [Error('Unsupported input format')] before the
    handler is touched, and [handle] rejects with that error. *)
Theorem unsupported_input (input : Input) (o : Options)
        (st : option FileHandler) :
  recognized input = false ->
  processInput input (constructor o)
  = (inl (Error "Unsupported input format"), constructor o)
  /\ fst (handle input o st) = inl (Error "Unsupported input format").
Proof.
  intros Hrec.
  assert (R : resolveInput input = inl (Error "Unsupported input format")).
  { destruct input as [v| | | |]; try discriminate; [|reflexivity].
    destruct v; try discriminate; reflexivity. }
  rewrite handle_run, (processInput_unresolved _ _ _ R). auto.
Qed.

(** C7. When the resolved type starts with [image/], optimisation is not
    skipped and the codec fails, on the metadata or on the encoding,
    [processInput] and [handle] fail with the error of the codec, and
    the handler does not receive the original bytes. *)
Theorem codec_error_propagates (input : Input) (o : Options)
        (bytes : Buffer) (s : string) (e : Exn) (st : option FileHandler) :
  resolveInput input = inr (bytes, Some s) ->
  startsWith s "image/" = true ->
  skipImageOptimization (options (constructor o)) = JBool false ->
  (sharp_metadata bytes = inl e
   \/ exists metadata,
        sharp_metadata bytes = inr metadata
        /\ sharp_toBuffer
             (transcode (options (constructor o)) bytes metadata) = inl e) ->
  processInput input (constructor o) = (inl e, typed o (Some s))
  /\ buffer (typed o (Some s)) = None
  /\ fst (handle input o st) = inl e.
Proof.
  intros R Himg Hskip Hfail.
  assert (Hopt : optimizes (typed o (Some s)) = true).
  { apply optimizes_typed. split; [exists s; auto | exact Hskip]. }
  assert (P : processInput input (constructor o) = (inl e, typed o (Some s))).
  { rewrite (processInput_resolved _ o _ _ R), Hopt, optimizeImage_run.
    destruct Hfail as [-> | [metadata [-> T]]]; [reflexivity|].
    change (options (typed o (Some s))) with (options (constructor o)).
    rewrite T. reflexivity. }
  rewrite handle_run, P. auto.
Qed.

(** C4, as the code has it.  When the response of a remote fetch has no
    content-type header, the handler keeps the fetched bytes with a
    [null] type, whatever the bytes are and whatever the sniffer would
    say of them; [isImage()] is [undefined], a falsy value, and the
    optimisation branch is not taken. *)
Theorem missing_content_type (url : string) (o : Options)
        (body : Buffer) (st : option FileHandler) :
  startsWith url "http://" || startsWith url "https://" = true ->
  fetch url = inr (mkResponse body None) ->
  let this := passed_through o body None in
  fst (handle (InValue (JStr url)) o st) = inr this
  /\ mimeType this = None
  /\ toBuffer this = Some body
  /\ isImage this = JUndefined
  /\ ToBoolean (isImage this) = false
  /\ optimizes (typed o None) = false.
Proof.
  intros Hurl Hfetch.
  assert (R : resolveInput (InValue (JStr url)) = inr (body, None)).
  { cbn [resolveInput]. rewrite Hurl. unfold rbind. rewrite Hfetch.
    reflexivity. }
  assert (Hopt : optimizes (typed o None) = false) by reflexivity.
  cbv zeta. rewrite handle_run, (processInput_resolved _ o _ _ R), Hopt.
  repeat split; reflexivity.
Qed.

End TranscodeFacts.

(** [resize_decision] on a 100 by 100 image and the default bounds. *)
Lemma resize_decision_witness :
  let c := options (constructor no_options) in
  let metadata := mkMetadata "png" 100%float 100%float in
  @js_gt Demo.env (JNum (md_width metadata)) (maxWidth c) = false
  /\ @js_gt Demo.env (JNum (md_height metadata)) (maxHeight c) = false
  /\ sh_resize (@transcode Demo.env c Demo.small_png metadata) = None
  /\ @output_dimensions Demo.env
       (@transcode Demo.env c Demo.small_png metadata) metadata
     = (100%float, 100%float).
Proof.
  cbv zeta.
  destruct (@resize_decision Demo.env (options (constructor no_options))
              Demo.small_png (mkMetadata "png" 100%float 100%float))
    as (_ & _ & H & _).
  split; [reflexivity|]. split; [reflexivity|].
  apply H; reflexivity.
Defined.

(** [mimeType_rewritten] on a PNG buffer converted to WebP. *)
Lemma mimeType_rewritten_witness :
  let this' :=
    {| options := options (constructor Demo.webp_options);
       buffer := Some [Byte.x4a; Byte.x00];
       mimeType := Some "image/webp" |} in
  @resolveInput Demo.env (InBuffer Demo.large_png)
  = inr (Demo.large_png, Some "image/png")
  /\ optimizes (typed Demo.webp_options (Some "image/png")) = true
  /\ @processInput Demo.env (InBuffer Demo.large_png) (constructor Demo.webp_options)
     = (inr tt, this')
  /\ mimeType this' = Some "image/webp".
Proof.
  cbv zeta.
  assert (R : @resolveInput Demo.env (InBuffer Demo.large_png)
              = inr (Demo.large_png, Some "image/png")) by reflexivity.
  assert (O : optimizes (typed Demo.webp_options (Some "image/png")) = true)
    by reflexivity.
  assert (P : @processInput Demo.env (InBuffer Demo.large_png)
                (constructor Demo.webp_options)
              = (inr tt,
                 {| options := options (constructor Demo.webp_options);
                    buffer := Some [Byte.x4a; Byte.x00];
                    mimeType := Some "image/webp" |})) by reflexivity.
  split; [exact R|]. split; [exact O|]. split; [exact P|].
  destruct (@mimeType_rewritten Demo.env _ _ _ _ _ R O P) as (_ & H & _).
  apply H. reflexivity.
Defined.

(** [unsupported_input] on the number 42. *)
Lemma unsupported_input_witness :
  recognized (InValue (JNum 42%float)) = false
  /\ fst (@handle Demo.env (InValue (JNum 42%float)) no_options None)
     = inl (Error "Unsupported input format").
Proof.
  split; [reflexivity|].
  apply (@unsupported_input Demo.env (InValue (JNum 42%float))
           no_options None).
  reflexivity.
Defined.

(** [codec_error_propagates] on a file named as a PNG that does not
    decode. *)
Lemma codec_error_propagates_witness :
  @resolveInput Demo.env (InValue (JStr "broken.png"))
  = inr (Demo.not_an_image, Some "image/png")
  /\ startsWith "image/png" "image/" = true
  /\ skipImageOptimization (options (constructor no_options)) = JBool false
  /\ @sharp_metadata Demo.env Demo.not_an_image
     = inl (Error "Input buffer contains unsupported image format")
  /\ fst (@handle Demo.env (InValue (JStr "broken.png")) no_options None)
     = inl (Error "Input buffer contains unsupported image format").
Proof.
  assert (R : @resolveInput Demo.env (InValue (JStr "broken.png"))
              = inr (Demo.not_an_image, Some "image/png")) by reflexivity.
  split; [exact R|]. split; [reflexivity|]. split; [reflexivity|].
  split; [reflexivity|].
  apply (@codec_error_propagates Demo.env _ no_options _ _
           (Error "Input buffer contains unsupported image format") None R);
    [reflexivity | reflexivity | left; reflexivity].
Defined.

(** [missing_content_type] on a response whose body the sniffer would
    call a PNG. *)
Lemma missing_content_type_witness :
  startsWith "https://example.com/logo" "http://"
  || startsWith "https://example.com/logo" "https://" = true
  /\ @fetch Demo.env "https://example.com/logo"
     = inr (mkResponse Demo.small_png None)
  /\ @detectMimeType Demo.env Demo.small_png = inr "image/png"
  /\ fst (@handle Demo.env (InValue (JStr "https://example.com/logo"))
            no_options None)
     = inr (passed_through no_options Demo.small_png None).
Proof.
  split; [reflexivity|]. split; [reflexivity|]. split; [reflexivity|].
  apply (@missing_content_type Demo.env "https://example.com/logo"
           no_options Demo.small_png None); reflexivity.
Defined.

(** C4, as the specification words it, fails on the code: for a
    response without a content-type header [isImage()] is not the
    boolean [false] ([isImage() === false] does not hold), it is
    [undefined]. *)
Lemma isImage_not_false_without_content_type :
  exists this,
    fst (@handle Demo.env (InValue (JStr "https://example.com/logo"))
           no_options None) = inr this
    /\ mimeType this = None
    /\ isImage this = JUndefined
    /\ isImage this <> JBool false.
Proof.
  exists (passed_through no_options Demo.small_png None).
  split; [reflexivity|]. split; [reflexivity|]. split; [reflexivity|].
  discriminate.
Qed.

(* ================================================================== *)
(** * The classifiers and the constructor *)
(* ================================================================== *)

(** C9. The test vectors of the two classifiers. *)
Theorem classifier_vectors :
  isBase64 (JStr "not base64!!") = false
  /\ isBase64 (JStr "aGVsbG8=") = true
  /\ isBase64DataURL (JStr "data:image/png;base64,aGVsbG8=") (Some "image/")
     = true
  /\ isBase64DataURL (JStr "data:text/plain;base64,aGVsbG8=") (Some "image/")
     = false.
Proof. repeat split; vm_compute; reflexivity. Qed.

(** The values the claim lists are falsy. *)
Lemma listed_values_falsy :
  Forall (fun v => ToBoolean v = false)
         [JNum 0%float; JBool false; JStr ""; JNull; JUndefined].
Proof. repeat constructor. Qed.

(** C10. The constructor replaces every option whose value is falsy by
    its default: 500 for [maxWidth] and [maxHeight], 90 for [quality],
    ['jpeg'] for [format], [false] for [skipImageOptimization]; so a
    [quality] of 0 becomes 90 and a [maxWidth] of 0 becomes 500. *)
Theorem falsy_options_take_defaults (o : Options) :
  let c := options (constructor o) in
  (ToBoolean (maxWidth o) = false -> maxWidth c = JNum 500%float)
  /\ (ToBoolean (maxHeight o) = false -> maxHeight c = JNum 500%float)
  /\ (ToBoolean (quality o) = false -> quality c = JNum 90%float)
  /\ (ToBoolean (format o) = false -> format c = JStr "jpeg")
  /\ (ToBoolean (skipImageOptimization o) = false ->
      skipImageOptimization c = JBool false)
  /\ (quality o = JNum 0%float -> quality c = JNum 90%float)
  /\ (maxWidth o = JNum 0%float -> maxWidth c = JNum 500%float)
  /\ Forall (fun v => ToBoolean v = false)
            [JNum 0%float; JBool false; JStr ""; JNull; JUndefined].
Proof.
  cbv zeta. cbn [constructor options maxWidth maxHeight quality format
                  skipImageOptimization].
  unfold js_or.
  repeat split; try (intros ->; reflexivity).
  apply listed_values_falsy.
Qed.

(** [falsy_options_take_defaults] on options that are all falsy. *)
Lemma falsy_options_take_defaults_witness :
  let o := mkOptions (JNum 0%float) JNull (JNum 0%float) (JStr "")
                     (JBool false) in
  ToBoolean (quality o) = false
  /\ quality o = JNum 0%float
  /\ quality (options (constructor o)) = JNum 90%float
  /\ maxWidth (options (constructor o)) = JNum 500%float.
Proof.
  cbv zeta.
  destruct (falsy_options_take_defaults
              (mkOptions (JNum 0%float) JNull (JNum 0%float) (JStr "")
                         (JBool false)))
    as (_ & _ & _ & _ & _ & Hq & Hw & _).
  split; [reflexivity|]. split; [reflexivity|].
  split; [apply Hq | apply Hw]; reflexivity.
Defined.

(* ================================================================== *)
(** * The matcher *)
(* ================================================================== *)

Lemma rmatch_Star_loop (r : regex) (s : list ascii) (cs : captures)
      (k : list ascii -> captures -> option captures) :
  rmatch (Star r) s cs k = star_loop r k (List.length s) s cs.
Proof. reflexivity. Qed.

Lemma star_loop_ext (r : regex)
      (IHr : forall s cs k1 k2,
          (forall s' cs', (List.length s' <= List.length s)%nat ->
                          k1 s' cs' = k2 s' cs') ->
          rmatch r s cs k1 = rmatch r s cs k2)
      (n : nat) (k1 k2 : list ascii -> captures -> option captures) :
  (forall s' cs', (List.length s' <= n)%nat -> k1 s' cs' = k2 s' cs') ->
  forall fuel s cs,
    (List.length s <= n)%nat ->
    star_loop r k1 fuel s cs = star_loop r k2 fuel s cs.
Proof.
  intros Hk. induction fuel as [|fuel IH]; intros s cs Hs; cbn [star_loop].
  - apply Hk, Hs.
  - rewrite (Hk s cs Hs).
    erewrite IHr; [reflexivity|].
    intros s' cs' Hs'. cbv beta.
    destruct (List.length s' <? List.length s)%nat; [|reflexivity].
    apply IH. lia.
Qed.

(** The matcher only looks at its continuation on what is left of the
    subject. *)
Lemma rmatch_ext (r : regex) :
  forall s cs k1 k2,
    (forall s' cs', (List.length s' <= List.length s)%nat ->
                    k1 s' cs' = k2 s' cs') ->
    rmatch r s cs k1 = rmatch r s cs k2.
Proof.
  induction r as [|p|r1 IH1 r2 IH2|r1 IH1 r2 IH2|r IH|i r IH];
    intros s cs k1 k2 Hk.
  - cbn. apply Hk. lia.
  - destruct s as [|c s]; cbn; [reflexivity|].
    destruct (p c); [|reflexivity]. apply Hk. cbn. lia.
  - cbn [rmatch]. apply IH1. intros s' cs' Hs'.
    apply IH2. intros s'' cs'' Hs''. apply Hk. lia.
  - cbn [rmatch]. rewrite (IH1 s cs k1 k2 Hk), (IH2 s cs k1 k2 Hk).
    reflexivity.
  - rewrite !rmatch_Star_loop.
    apply (star_loop_ext r IH (List.length s)); [exact Hk | lia].
  - cbn [rmatch]. apply IH. intros s' cs' Hs'. apply Hk, Hs'.
Qed.

Lemma rmatch_none (r : regex) (s : list ascii) (cs : captures)
      (k : list ascii -> captures -> option captures) :
  (forall s' cs', (List.length s' <= List.length s)%nat -> k s' cs' = None) ->
  rmatch r s cs k = None.
Proof.
  intros Hk.
  rewrite (rmatch_ext r s cs k (fun _ _ => None) Hk).
  clear Hk k. revert s cs.
  induction r as [|p|r1 IH1 r2 IH2|r1 IH1 r2 IH2|r IH|i r IH]; intros s cs.
  - reflexivity.
  - destruct s as [|c s]; cbn; [reflexivity|]. destruct (p c); reflexivity.
  - cbn [rmatch].
    rewrite (rmatch_ext r1 s cs _ (fun _ _ => None)); [apply IH1|].
    intros s' cs' _. apply IH2.
  - cbn [rmatch]. rewrite IH1, IH2. reflexivity.
  - rewrite rmatch_Star_loop. generalize (List.length s) as fuel.
    intros fuel. revert s cs.
    induction fuel as [|fuel IHf]; intros s cs; cbn [star_loop];
      [reflexivity|].
    rewrite (rmatch_ext r s cs _ (fun _ _ => None)); [now rewrite IH|].
    intros s' cs' _. cbv beta.
    destruct (List.length s' <? List.length s)%nat; [apply IHf | reflexivity].
  - cbn [rmatch]. apply IH.
Qed.

(** Fuel beyond the length of the subject changes nothing. *)
Lemma star_loop_fuel (r : regex)
      (k : list ascii -> captures -> option captures) :
  forall fuel1 fuel2 s cs,
    (List.length s <= fuel1)%nat -> (List.length s <= fuel2)%nat ->
    star_loop r k fuel1 s cs = star_loop r k fuel2 s cs.
Proof.
  assert (Hempty : forall fuel cs, star_loop r k fuel [] cs = k [] cs).
  { intros [|fuel] cs; cbn [star_loop]; [reflexivity|].
    rewrite rmatch_none; [reflexivity|].
    intros s' cs' _. reflexivity. }
  induction fuel1 as [|fuel1 IH]; intros fuel2 s cs H1 H2.
  - destruct s; [|cbn in H1; lia]. now rewrite !Hempty.
  - destruct fuel2 as [|fuel2].
    + destruct s; [|cbn in H2; lia]. now rewrite !Hempty.
    + cbn [star_loop].
      erewrite rmatch_ext; [reflexivity|].
      intros s' cs' Hs'. cbv beta.
      destruct (List.length s' <? List.length s)%nat eqn:Hlt; [|reflexivity].
      apply Nat.ltb_lt in Hlt. apply IH; lia.
Qed.

(** [r*] is one more [r] that consumes something, followed by [r*], or
    nothing. *)
Lemma rmatch_Star_unfold (r : regex) (s : list ascii) (cs : captures)
      (k : list ascii -> captures -> option captures) :
  rmatch (Star r) s cs k
  = match rmatch r s cs
            (fun s' cs' =>
               if (List.length s' <? List.length s)%nat
               then rmatch (Star r) s' cs' k else None) with
    | Some res => Some res
    | None => k s cs
    end.
Proof.
  rewrite rmatch_Star_loop.
  rewrite (star_loop_fuel r k (List.length s) (S (List.length s)) s cs)
    by lia.
  cbn [star_loop].
  erewrite rmatch_ext; [reflexivity|].
  intros s' cs' Hs'. cbv beta.
  destruct (List.length s' <? List.length s)%nat eqn:Hlt; [|reflexivity].
  apply Nat.ltb_lt in Hlt. rewrite rmatch_Star_loop.
  apply star_loop_fuel; lia.
Qed.

Lemma rmatch_Lit_app (p : string) (rest : list ascii) (cs : captures)
      (k : list ascii -> captures -> option captures) :
  rmatch (Lit p) (list_ascii_of_string p ++ rest) cs k = k rest cs.
Proof.
  induction p as [|c p IH]; cbn; [reflexivity|].
  rewrite Ascii.eqb_refl. exact IH.
Qed.

Lemma rmatch_Class_cons (p : ascii -> bool) (c : ascii) (s : list ascii)
      (cs : captures) (k : list ascii -> captures -> option captures) :
  rmatch (Class p) (c :: s) cs k = if p c then k s cs else None.
Proof. reflexivity. Qed.

Lemma rmatch_Class_nil (p : ascii -> bool) (cs : captures)
      (k : list ascii -> captures -> option captures) :
  rmatch (Class p) [] cs k = None.
Proof. reflexivity. Qed.

Lemma rmatch_Seq (r1 r2 : regex) (s : list ascii) (cs : captures)
      (k : list ascii -> captures -> option captures) :
  rmatch (Seq r1 r2) s cs k
  = rmatch r1 s cs (fun s' cs' => rmatch r2 s' cs' k).
Proof. reflexivity. Qed.

(** A greedy [*] over a class, on characters of the class followed by
    one that is not. *)
Lemma star_class_backtrack (p : ascii -> bool) (taken rest : list ascii)
      (cs : captures) (k : list ascii -> captures -> option captures) :
  Forall (fun c => p c = true) taken ->
  match rest with [] => True | c :: _ => p c = false end ->
  rmatch (Star (Class p)) (taken ++ rest) cs k = backtrack k taken rest cs.
Proof.
  intros Htaken Hrest. induction Htaken as [|c taken Hc _ IH].
  - rewrite rmatch_Star_unfold. cbn [app backtrack].
    destruct rest as [|c rest].
    + now rewrite rmatch_Class_nil.
    + now rewrite rmatch_Class_cons, Hrest.
  - rewrite rmatch_Star_unfold.
    change ((c :: taken) ++ rest) with (c :: (taken ++ rest)).
    rewrite rmatch_Class_cons, Hc. cbn [backtrack].
    replace (List.length (taken ++ rest) <? List.length (c :: taken ++ rest))%nat
      with true by (symmetry; apply Nat.ltb_lt; cbn; lia).
    rewrite IH. reflexivity.
Qed.

Lemma backtrack_longest (k : list ascii -> captures -> option captures)
      (taken rest : list ascii) (cs res : captures) :
  k rest cs = Some res -> backtrack k taken rest cs = Some res.
Proof.
  intros Hk. induction taken as [|c taken IH]; cbn [backtrack];
    [exact Hk | now rewrite IH].
Qed.

(* ================================================================== *)
(** * What [isBase64] accepts *)
(* ================================================================== *)

Lemma four_chars (s : list ascii) (cs : captures)
      (k : list ascii -> captures -> option captures) :
  rmatch (Repeat 4 (Class base64_class)) s cs k
  = match s with
    | c1 :: c2 :: c3 :: c4 :: s' =>
        if base64_class c1 && base64_class c2
           && base64_class c3 && base64_class c4
        then k s' cs else None
    | _ => None
    end.
Proof.
  destruct s as [|c1 [|c2 [|c3 [|c4 s']]]]; cbn;
    repeat match goal with
           | |- context [base64_class ?c] => destruct (base64_class c)
           end; reflexivity.
Qed.

Lemma pad_not_in_class : base64_class Base64.pad = false.
Proof. reflexivity. Qed.

Lemma class_not_pad (c : ascii) :
  base64_class c = true -> Ascii.eqb c Base64.pad = false.
Proof.
  intros Hc. destruct (Ascii.eqb c Base64.pad) eqn:E; [|reflexivity].
  apply Ascii.eqb_eq in E. subst c. rewrite pad_not_in_class in Hc.
  discriminate.
Qed.

Lemma last_group_sound (s : list ascii) (cs res : captures) :
  rmatch last_group s cs at_end = Some res -> padded s.
Proof.
  destruct s as [|c1 [|c2 [|c3 [|c4 [|c5 s']]]]];
    cbn -[Ascii.eqb base64_class];
    repeat match goal with
           | |- context [base64_class ?c] =>
               let E := fresh "E" in destruct (base64_class c) eqn:E
           | |- context [Ascii.eqb ?a ?c] =>
               let E := fresh "Q" in
               destruct (Ascii.eqb a c) eqn:E;
               [apply Ascii.eqb_eq in E; subst c|]
           end;
    intros H; try discriminate H;
    try (constructor; assumption).
Qed.

Lemma last_group_complete (s : list ascii) (cs : captures) :
  s = []
  \/ (exists c1 c2, s = [c1; c2; Base64.pad; Base64.pad]
                    /\ base64_class c1 = true /\ base64_class c2 = true)
  \/ (exists c1 c2 c3, s = [c1; c2; c3; Base64.pad]
                       /\ base64_class c1 = true /\ base64_class c2 = true
                       /\ base64_class c3 = true) ->
  rmatch last_group s cs at_end = Some cs.
Proof.
  intros [-> | [(c1 & c2 & -> & H1 & H2) | (c1 & c2 & c3 & -> & H1 & H2 & H3)]].
  - reflexivity.
  - cbn -[Ascii.eqb base64_class]. rewrite H1, H2. reflexivity.
  - cbn -[Ascii.eqb base64_class]. rewrite H1, H2, H3.
    replace (Ascii.eqb "=" c3) with false; [reflexivity|].
    symmetry. rewrite Ascii.eqb_sym. apply (class_not_pad c3 H3).
Qed.

Lemma groups_sound (n : nat) :
  forall s cs res,
    (List.length s <= n)%nat ->
    rmatch (Star (Repeat 4 (Class base64_class))) s cs
      (fun s' cs' => rmatch last_group s' cs' at_end) = Some res ->
    padded s.
Proof.
  induction n as [|n IH]; intros s cs res Hlen H;
    rewrite rmatch_Star_unfold, four_chars in H.
  - destruct s; [|cbn in Hlen; lia]. apply (last_group_sound _ _ _ H).
  - destruct s as [|c1 [|c2 [|c3 [|c4 s']]]];
      try (apply (last_group_sound _ _ _ H)).
    destruct (base64_class c1) eqn:E1; [|apply (last_group_sound _ _ _ H)].
    destruct (base64_class c2) eqn:E2; [|apply (last_group_sound _ _ _ H)].
    destruct (base64_class c3) eqn:E3; [|apply (last_group_sound _ _ _ H)].
    destruct (base64_class c4) eqn:E4; [|apply (last_group_sound _ _ _ H)].
    cbn [andb] in H.
    replace (List.length s' <? List.length (c1 :: c2 :: c3 :: c4 :: s'))%nat
      with true in H by (symmetry; apply Nat.ltb_lt; cbn; lia).
    destruct (rmatch (Star (Repeat 4 (Class base64_class))) s' cs
                (fun s'0 cs' => rmatch last_group s'0 cs' at_end))
      as [res'|] eqn:R.
    + apply padded_group; auto. apply (IH s' cs res'); [cbn in Hlen; lia|].
      exact R.
    + apply (last_group_sound _ _ _ H).
Qed.

Lemma groups_complete (s : list ascii) :
  padded s ->
  forall cs,
    rmatch (Star (Repeat 4 (Class base64_class))) s cs
      (fun s' cs' => rmatch last_group s' cs' at_end) = Some cs.
Proof.
  induction 1 as [|c1 c2 H1 H2|c1 c2 c3 H1 H2 H3|c1 c2 c3 c4 l H1 H2 H3 H4 _ IH];
    intros cs; rewrite rmatch_Star_unfold, four_chars.
  - reflexivity.
  - rewrite H1, H2, pad_not_in_class. cbn [andb].
    apply last_group_complete. right. left. exists c1, c2. auto.
  - rewrite H1, H2, H3, pad_not_in_class. cbn [andb].
    apply last_group_complete. right. right. exists c1, c2, c3. auto.
  - rewrite H1, H2, H3, H4. cbn [andb].
    replace (List.length l <? List.length (c1 :: c2 :: c3 :: c4 :: l))%nat
      with true by (symmetry; apply Nat.ltb_lt; cbn; lia).
    rewrite IH. reflexivity.
Qed.

(** [base64Regex] accepts exactly the padded texts. *)
Lemma base64Regex_padded (s : string) :
  test base64Regex s = true <-> padded (list_ascii_of_string s).
Proof.
  unfold test, exec, base64Regex. rewrite rmatch_Seq.
  change (fun rest cs => match rest with [] => Some cs | _ => None end)
    with at_end.
  fold last_group. split.
  - destruct (rmatch _ _ _ _) as [res|] eqn:R; [|discriminate].
    intros _. apply (groups_sound _ _ _ _ (le_n _) R).
  - intros Hp. now rewrite (groups_complete _ Hp).
Qed.

Lemma alphabet_in_class :
  forallb (fun n => base64_class (Base64.char_of (Z.of_nat n))) (seq 0 64)
  = true.
Proof. vm_compute. reflexivity. Qed.

Lemma char_of_class (z : Z) :
  Base64.sextet z -> base64_class (Base64.char_of z) = true.
Proof.
  intros Hz. pose proof alphabet_in_class as H.
  rewrite forallb_forall in H. specialize (H (Z.to_nat z)).
  rewrite Z2Nat.id in H by (unfold Base64.sextet in Hz; lia).
  apply H, in_seq. unfold Base64.sextet in Hz. lia.
Qed.

Lemma encode_chars (bs : list Byte.byte) :
  list_ascii_of_string (Base64.encode bs)
  = map Base64.char_of (Base64.sextets bs) ++ Base64.padding bs.
Proof. unfold Base64.encode. apply list_ascii_of_string_of_list_ascii. Qed.

(** The text [encode] produces is padded. *)
Lemma encode_padded (bs : list Byte.byte) :
  padded (list_ascii_of_string (Base64.encode bs)).
Proof.
  rewrite encode_chars.
  induction bs as [|a|a b|a b c l IH] using list_ind3.
  - constructor.
  - pose proof (sextets_range [a]) as R. cbn [Base64.sextets] in R.
    inversion R as [|? ? R1 R']; subst. inversion R' as [|? ? R2 _]; subst.
    cbn [Base64.sextets Base64.padding map app].
    apply padded_two; apply char_of_class; assumption.
  - pose proof (sextets_range [a; b]) as R. cbn [Base64.sextets] in R.
    inversion R as [|? ? R1 R']; subst. inversion R' as [|? ? R2 R'']; subst.
    inversion R'' as [|? ? R3 _]; subst.
    cbn [Base64.sextets Base64.padding map app].
    apply padded_three; apply char_of_class; assumption.
  - pose proof (sextets_range (a :: b :: c :: l)) as R.
    cbn [Base64.sextets] in R.
    inversion R as [|? ? R1 R']; subst. inversion R' as [|? ? R2 R'']; subst.
    inversion R'' as [|? ? R3 R3']; subst. inversion R3' as [|? ? R4 _]; subst.
    cbn [Base64.sextets Base64.padding map app].
    apply padded_group; try (apply char_of_class; assumption). exact IH.
Qed.

Lemma encode_empty (bs : list Byte.byte) :
  Base64.encode bs = "" <-> bs = [].
Proof.
  split; [|intros ->; reflexivity].
  intros H. apply (f_equal list_ascii_of_string) in H.
  rewrite encode_chars in H.
  destruct bs as [|a [|b [|c l]]]; [reflexivity|discriminate..].
Qed.

Lemma btoa_atob_encoded (bs : list Byte.byte) :
  atob (Base64.encode bs) = inr (string_of_list_byte bs)
  /\ btoa (string_of_list_byte bs) = inr (Base64.encode bs).
Proof.
  unfold atob, btoa. rewrite decode_encode, list_byte_of_string_of_list_byte.
  auto.
Qed.

(** [isBase64] accepts the base64 text of every buffer but the empty
    one, whose text is the empty string. *)
Theorem isBase64_of_encoded (bs : list Byte.byte) :
  isBase64 (JStr (Base64.encode bs))
  = match bs with [] => false | _ :: _ => true end.
Proof.
  destruct bs as [|b bs]; [reflexivity|].
  destruct (btoa_atob_encoded (b :: bs)) as [Ha Hb].
  assert (Ht : test base64Regex (Base64.encode (b :: bs)) = true)
    by (apply base64Regex_padded, encode_padded).
  assert (Hne : String.eqb (Base64.encode (b :: bs)) "" = false).
  { apply String.eqb_neq. intros H. apply encode_empty in H. discriminate. }
  remember (Base64.encode (b :: bs)) as s eqn:Hs. clear Hs.
  unfold isBase64, js_not. cbn [ToBoolean typeof_is_string negb orb].
  rewrite Hne. cbn [negb orb].
  rewrite Ht. cbn [negb].
  rewrite Ha. cbn [rbind]. rewrite Hb. cbn [rbind try_catch].
  apply String.eqb_refl.
Qed.

Lemma pads_for_four (n : nat) :
  pads_for (S (S (S (S n)))) = pads_for n.
Proof.
  unfold pads_for.
  replace (S (S (S (S n)))) with (n + 1 * 4)%nat by lia.
  now rewrite Nat.Div0.mod_add.
Qed.

(** A padded text is its characters of the alphabet followed by the
    padding their number asks for. *)
Lemma padded_split (l : list ascii) :
  padded l ->
  exists body,
    Forall (fun c => base64_class c = true) body
    /\ l = body ++ pads_for (List.length body).
Proof.
  induction 1 as [|c1 c2 H1 H2|c1 c2 c3 H1 H2 H3
                  |c1 c2 c3 c4 l H1 H2 H3 H4 _ (body & Hb & ->)].
  - exists []. auto.
  - exists [c1; c2]. auto.
  - exists [c1; c2; c3]. auto.
  - exists (c1 :: c2 :: c3 :: c4 :: body). split; [auto|].
    cbn [List.length]. rewrite pads_for_four. reflexivity.
Qed.

Lemma padding_pads_for (bs : list Byte.byte) :
  Base64.padding bs = pads_for (List.length (Base64.sextets bs)).
Proof.
  induction bs as [|a|a b|a b c l IH] using list_ind3; try reflexivity.
  cbn [Base64.sextets Base64.padding List.length].
  rewrite pads_for_four. exact IH.
Qed.

Lemma remove_pads (body : list ascii) (n : nat) :
  Forall (fun c => base64_class c = true) body ->
  filter (fun c => negb (Ascii.eqb c "=")) (body ++ pads_for n) = body.
Proof.
  intros Hb. rewrite filter_app.
  replace (filter _ (pads_for n)) with (@nil ascii).
  - rewrite app_nil_r. induction Hb as [|c body Hc _ IH]; cbn [filter].
    + reflexivity.
    + pose proof (class_not_pad c Hc) as Hp. unfold Base64.pad in Hp.
      rewrite Hp. cbn [negb]. now rewrite IH.
  - unfold pads_for. destruct (n mod 4)%nat as [|[|[|[|?]]]]; reflexivity.
Qed.

(** Whatever [isBase64] accepts is the base64 text of a buffer that is
    not empty: a string, with its padding, without white space and
    with no stray bits in its last character. *)
Theorem isBase64_canonical (v : JsVal) :
  isBase64 v = true ->
  exists bs, bs <> [] /\ v = JStr (Base64.encode bs).
Proof.
  unfold isBase64, js_not. destruct v as [| |b|f|s]; try discriminate;
    try (destruct b; discriminate);
    try (cbn; destruct (negb _); discriminate).
  cbn [ToBoolean typeof_is_string negb orb].
  destruct (String.eqb s "") eqn:Hne; [discriminate|]. cbn [negb orb].
  destruct (test base64Regex s) eqn:Ht; [|discriminate]. cbn [negb].
  unfold atob. destruct (Base64.decode s) as [bs|]; [|discriminate].
  cbn [rbind]. unfold btoa. rewrite list_byte_of_string_of_list_byte.
  cbn [rbind try_catch]. intros Heq. apply String.eqb_eq in Heq.
  assert (Hs : s = Base64.encode bs).
  { apply base64Regex_padded, padded_split in Ht.
    destruct Ht as (body & Hbody & Hl).
    unfold remove_equals in Heq.
    apply (f_equal list_ascii_of_string) in Heq.
    rewrite !list_ascii_of_string_of_list_ascii in Heq.
    rewrite Hl, encode_chars, padding_pads_for in Heq.
    rewrite (remove_pads body _ Hbody) in Heq.
    rewrite remove_pads in Heq.
    2:{ apply Forall_forall. intros c Hc. apply in_map_iff in Hc.
        destruct Hc as (z & <- & Hz). apply char_of_class.
        pose proof (sextets_range bs) as R. rewrite Forall_forall in R.
        auto. }
    rewrite <- (string_of_list_ascii_of_string s), Hl, <- Heq.
    rewrite length_map, <- padding_pads_for, <- encode_chars.
    apply string_of_list_ascii_of_string. }
  exists bs. split; [|now rewrite Hs].
  intros ->. subst s. discriminate.
Qed.

(* ================================================================== *)
(** * What [isBase64DataURL] accepts *)
(* ================================================================== *)

Lemma dataURLRegex_parts :
  dataURLRegex
  = Seq (Lit "data:") (Seq type_group (Seq (Star param_group) payload_part)).
Proof. reflexivity. Qed.

Lemma rmatch_Capture (i : nat) (r : regex) (s : list ascii) (cs : captures)
      (k : list ascii -> captures -> option captures) :
  rmatch (Capture i r) s cs k
  = rmatch r s cs
      (fun s' cs' =>
         k s' ((i, string_of_list_ascii
                     (firstn (List.length s - List.length s') s)) :: cs')).
Proof. reflexivity. Qed.

Lemma rmatch_Lit_mismatch (c d : ascii) (p : string) (rest : list ascii)
      (cs : captures) (k : list ascii -> captures -> option captures) :
  Ascii.eqb c d = false ->
  rmatch (Lit (String c p)) (d :: rest) cs k = None.
Proof. intros H. cbn [Lit]. now rewrite rmatch_Seq, rmatch_Class_cons, H. Qed.

Lemma rmatch_Plus_class (p : ascii -> bool) (c : ascii) (s : list ascii)
      (cs : captures) (k : list ascii -> captures -> option captures) :
  p c = true ->
  rmatch (Plus (Class p)) (c :: s) cs k = rmatch (Star (Class p)) s cs k.
Proof.
  intros H. unfold Plus. now rewrite rmatch_Seq, rmatch_Class_cons, H.
Qed.

Lemma firstn_taken (A : Type) (a b : list A) :
  firstn (List.length (a ++ b) - List.length b) (a ++ b) = a.
Proof.
  rewrite length_app.
  replace (List.length a + List.length b - List.length b)%nat
    with (List.length a + 0)%nat by lia.
  rewrite firstn_app_2. cbn [firstn]. apply app_nil_r.
Qed.

(** No parameter starts at a character that is not a semicolon, and
    neither does [;base64,]. *)
Lemma params_reject (c : ascii) (rest : list ascii) (cs : captures) :
  Ascii.eqb ";" c = false ->
  rmatch (Star param_group) (c :: rest) cs
    (fun s' cs' => rmatch payload_part s' cs' at_end) = None.
Proof.
  intros H. rewrite rmatch_Star_unfold.
  unfold param_group at 1. rewrite rmatch_Capture, rmatch_Seq.
  rewrite (rmatch_Lit_mismatch ";" c "" rest _ _ H).
  unfold payload_part. rewrite rmatch_Seq.
  apply rmatch_Lit_mismatch, H.
Qed.

Lemma if_same (A : Type) (b : bool) (x : A) : (if b then x else x) = x.
Proof. destruct b; reflexivity. Qed.

(** After the type, [;base64,] and a payload without double quote are
    taken as they are: the attempt to read [;base64] as a parameter
    fails at the comma. *)
Lemma payload_accepted (payload : list ascii) (cs : captures) :
  Forall (fun c => not_quote_class c = true) payload ->
  rmatch (Seq (Star param_group) payload_part)
    (list_ascii_of_string ";base64," ++ payload) cs at_end
  = Some ((3%nat, string_of_list_ascii payload) :: cs).
Proof.
  intros Hpay. rewrite rmatch_Seq, rmatch_Star_unfold.
  assert (Hparam :
    rmatch param_group (list_ascii_of_string ";base64," ++ payload) cs
      (fun s' cs' =>
         if (List.length s'
             <? List.length (list_ascii_of_string ";base64," ++ payload))%nat
         then rmatch (Star param_group) s' cs'
                (fun s'0 cs'0 => rmatch payload_part s'0 cs'0 at_end)
         else None) = None).
  { unfold param_group at 1. rewrite rmatch_Capture, rmatch_Seq.
    change (list_ascii_of_string ";base64," ++ payload)
      with (list_ascii_of_string ";"
              ++ "b"%char :: list_ascii_of_string "ase64"
              ++ ","%char :: payload).
    rewrite rmatch_Lit_app, rmatch_Plus_class by reflexivity.
    rewrite star_class_backtrack;
      [|repeat constructor|reflexivity].
    cbn [backtrack list_ascii_of_string app].
    rewrite !params_reject by reflexivity.
    rewrite !if_same. reflexivity. }
  rewrite Hparam. unfold payload_part.
  rewrite rmatch_Seq, rmatch_Lit_app, rmatch_Capture.
  rewrite <- (app_nil_r payload) at 1.
  rewrite star_class_backtrack; [|exact Hpay|exact I].
  apply backtrack_longest. cbn [at_end List.length].
  rewrite Nat.sub_0_r, firstn_all. reflexivity.
Qed.

(** The match of [dataURLRegex] on [data:], a type, a slash, a
    subtype, [;base64,] and a payload. *)
Lemma dataURLRegex_match (type subtype payload : list ascii)
      (c d : ascii) :
  Forall (fun x => alnum_class x = true) (c :: type) ->
  Forall (fun x => subtype_class x = true) (d :: subtype) ->
  Forall (fun x => not_quote_class x = true) payload ->
  rmatch dataURLRegex
    (list_ascii_of_string "data:"
       ++ ((c :: type) ++ "/"%char :: d :: subtype)
       ++ list_ascii_of_string ";base64," ++ payload) [] at_end
  = Some [(3%nat, string_of_list_ascii payload);
          (1%nat, string_of_list_ascii
                    ((c :: type) ++ "/"%char :: d :: subtype))].
Proof.
  intros Ht Hs Hp. inversion Ht as [|? ? Hc Ht']; subst.
  inversion Hs as [|? ? Hd Hs']; subst.
  rewrite dataURLRegex_parts, rmatch_Seq, rmatch_Lit_app, rmatch_Seq.
  unfold type_group. rewrite rmatch_Capture, rmatch_Seq.
  set (subject := ((c :: type) ++ "/"%char :: d :: subtype)
                    ++ list_ascii_of_string ";base64," ++ payload).
  assert (Hsubject :
    subject = c :: type ++ ("/"%char :: d :: subtype
                              ++ list_ascii_of_string ";base64," ++ payload)).
  { unfold subject. cbn [app]. now rewrite <- app_assoc. }
  rewrite Hsubject at 1.
  rewrite rmatch_Plus_class by exact Hc.
  rewrite star_class_backtrack; [|exact Ht'|reflexivity].
  apply backtrack_longest.
  rewrite rmatch_Seq.
  change ("/"%char :: d :: subtype ++ list_ascii_of_string ";base64," ++ payload)
    with (list_ascii_of_string "/"
            ++ d :: subtype ++ list_ascii_of_string ";base64," ++ payload).
  rewrite rmatch_Lit_app, rmatch_Plus_class by exact Hd.
  rewrite star_class_backtrack; [|exact Hs'|reflexivity].
  apply backtrack_longest.
  unfold subject. rewrite firstn_taken.
  apply payload_accepted, Hp.
Qed.

Lemma chars_append (a b : string) :
  list_ascii_of_string (a ++ b)
  = list_ascii_of_string a ++ list_ascii_of_string b.
Proof. induction a as [|c a IH]; cbn; [reflexivity | now rewrite IH]. Qed.

Lemma token_chars (p : ascii -> bool) (s : string) :
  is_token p s = true ->
  exists c l, list_ascii_of_string s = c :: l
              /\ Forall (fun x => p x = true) (c :: l).
Proof.
  unfold is_token. intros H. apply andb_prop in H. destruct H as [Hne Hall].
  destruct s as [|c s]; [discriminate|].
  exists c, (list_ascii_of_string s). split; [reflexivity|].
  apply Forall_forall. rewrite forallb_forall in Hall. exact Hall.
Qed.

Lemma class_not_quote (c : ascii) :
  base64_class c = true -> not_quote_class c = true.
Proof.
  intros Hc. unfold not_quote_class.
  destruct (Ascii.eqb c double_quote) eqn:Q; [|reflexivity].
  apply Ascii.eqb_eq in Q. subst c. discriminate.
Qed.

Lemma padded_not_quote (l : list ascii) :
  padded l -> Forall (fun c => not_quote_class c = true) l.
Proof.
  induction 1; repeat constructor; auto using class_not_quote.
Qed.

Lemma startsWith_append (p s : string) : startsWith (p ++ s) p = true.
Proof.
  unfold startsWith. induction p as [|c p IH]; cbn.
  - destruct s; reflexivity.
  - destruct (ascii_dec c c) as [_|N]; [exact IH | now elim N].
Qed.

(** [isBase64DataURL] on the text [toBase64URL] builds from a type
    [type/subtype] and a buffer: accepted without a prefix, and with a
    prefix exactly when the prefix is empty or starts the type. *)
Lemma isBase64DataURL_built (type subtype : string) (bytes : Buffer)
      (mimeTypePrefix : option string) :
  is_token alnum_class type = true ->
  is_token subtype_class subtype = true ->
  isBase64DataURL
    (JStr ("data:" ++ (type ++ "/" ++ subtype) ++ ";base64,"
             ++ Base64.encode bytes))
    mimeTypePrefix
  = match mimeTypePrefix with
    | Some p => String.eqb p "" || startsWith (type ++ "/" ++ subtype) p
    | None => true
    end.
Proof.
  intros Ht Hs.
  destruct (token_chars _ _ Ht) as (c & t & Hct & Ft).
  destruct (token_chars _ _ Hs) as (d & s & Hds & Fs).
  assert (Hexec :
    exec dataURLRegex
      ("data:" ++ (type ++ "/" ++ subtype) ++ ";base64,"
         ++ Base64.encode bytes)
    = Some [(3%nat, Base64.encode bytes);
            (1%nat, (type ++ "/" ++ subtype)%string)]).
  { unfold exec. fold at_end.
    rewrite !chars_append, Hct, Hds.
    change (list_ascii_of_string "/") with ["/"%char].
    change (["/"%char] ++ d :: s) with ("/"%char :: d :: s).
    rewrite (dataURLRegex_match t s _ c d Ft Fs
               (padded_not_quote _ (encode_padded bytes))).
    rewrite string_of_list_ascii_of_string.
    rewrite <- Hct.
    change ("/"%char :: d :: s) with (list_ascii_of_string "/" ++ d :: s).
    rewrite <- Hds, <- !chars_append, string_of_list_ascii_of_string.
    reflexivity. }
  destruct (btoa_atob_encoded bytes) as [Ha Hb].
  unfold isBase64DataURL.
  change (js_not (JStr ("data:" ++ (type ++ "/" ++ subtype) ++ ";base64,"
                          ++ Base64.encode bytes))) with false.
  cbn [typeof_is_string negb orb].
  rewrite startsWith_append.
  cbn [negb]. rewrite Hexec. cbn [capture Nat.eqb].
  rewrite Ha. cbn [rbind]. rewrite Hb. cbn [rbind try_catch].
  rewrite String.eqb_refl.
  destruct mimeTypePrefix as [p|]; [|reflexivity].
  destruct (String.eqb p ""); cbn [negb andb orb]; [reflexivity|].
  destruct (startsWith (type ++ "/" ++ subtype) p); reflexivity.
Qed.

(* ================================================================== *)
(** * More properties of the pipeline *)
(* ================================================================== *)

Lemma js_or_idempotent (a d : JsVal) : js_or (js_or a d) d = js_or a d.
Proof.
  unfold js_or. destruct (ToBoolean a) eqn:T.
  - now rewrite T.
  - destruct (ToBoolean d); reflexivity.
Qed.

(** Resolving the options a second time changes nothing: the options
    of a handler can be handed to another constructor. *)
Theorem constructor_idempotent (o : Options) :
  options (constructor (options (constructor o))) = options (constructor o).
Proof.
  cbn [constructor options maxWidth maxHeight quality format
       skipImageOptimization].
  now rewrite !js_or_idempotent.
Qed.

Lemma js_or_truthy (a d : JsVal) :
  ToBoolean d = true -> ToBoolean (js_or a d) = true.
Proof.
  intros Hd. unfold js_or. destruct (ToBoolean a) eqn:T; [exact T | exact Hd].
Qed.

(** The options of a new handler are never [undefined], [null], zero,
    [NaN] or empty: the two bounds, the quality and the format are
    truthy, and [skipImageOptimization] is truthy or [false]. *)
Theorem constructor_options_truthy (o : Options) :
  let c := options (constructor o) in
  ToBoolean (maxWidth c) = true
  /\ ToBoolean (maxHeight c) = true
  /\ ToBoolean (quality c) = true
  /\ ToBoolean (format c) = true
  /\ (ToBoolean (skipImageOptimization c) = true
      \/ skipImageOptimization c = JBool false)
  /\ buffer (constructor o) = None
  /\ mimeType (constructor o) = None.
Proof.
  cbv zeta.
  cbn [constructor options maxWidth maxHeight quality format
       skipImageOptimization buffer mimeType].
  repeat split; try (apply js_or_truthy; reflexivity).
  unfold js_or. destruct (ToBoolean (skipImageOptimization o)) eqn:T; auto.
Qed.

Section MorePipelineFacts.

Context {E : Env}.

Lemma processInput_same_resolution (i1 i2 : Input) (this : FileHandler) :
  resolveInput i1 = resolveInput i2 ->
  processInput i1 this = processInput i2 this.
Proof. intros H. unfold processInput. now rewrite H. Qed.

Lemma handle_same_resolution (i1 i2 : Input) (o : Options)
      (st : option FileHandler) :
  resolveInput i1 = resolveInput i2 ->
  handle i1 o st = handle i2 o st.
Proof.
  intros H. unfold handle.
  now rewrite (processInput_same_resolution i1 i2 _ H).
Qed.

Lemma skip_not (o : Options) :
  js_not (skipImageOptimization (options (constructor o)))
  = negb (ToBoolean (skipImageOptimization o)).
Proof.
  cbn [constructor options skipImageOptimization]. unfold js_or, js_not.
  destruct (ToBoolean (skipImageOptimization o)) eqn:T;
    [now rewrite T | reflexivity].
Qed.

(** What [processInput] does with a buffer on a new handler, in full.
    A buffer [sharp] cannot read is kept as it is with the type
    [application/octet-stream]; one it reads is an image: kept as it
    is, with the sniffed type, when [skipImageOptimization] is truthy,
    and transcoded otherwise, with the error of the encoder and no
    bytes if it fails. *)
Theorem processInput_buffer (b : Buffer) (o : Options) :
  processInput (InBuffer b) (constructor o)
  = match sharp_metadata b with
    | inl _ =>
        (inr tt, passed_through o b (Some "application/octet-stream"))
    | inr metadata =>
        if ToBoolean (skipImageOptimization o)
        then (inr tt,
              passed_through o b
                (Some ("image/" ++ md_format metadata)%string))
        else
          match sharp_toBuffer
                  (transcode (options (constructor o)) b metadata) with
          | inl e =>
              (inl e, typed o (Some ("image/" ++ md_format metadata)%string))
          | inr out =>
              (inr tt,
               {| options := options (constructor o);
                  buffer := Some out;
                  mimeType :=
                    Some ("image/"
                            ++ ToString (format (options (constructor o))))%string |})
          end
    end.
Proof.
  destruct (sharp_metadata b) as [e|metadata] eqn:Hmd.
  - assert (R : resolveInput (InBuffer b)
                = inr (b, Some "application/octet-stream")).
    { cbn [resolveInput]. unfold detectMimeType. now rewrite Hmd. }
    rewrite (processInput_resolved _ o _ _ R).
    assert (Hopt : optimizes (typed o (Some "application/octet-stream"))
                   = false) by reflexivity.
    now rewrite Hopt.
  - assert (R : resolveInput (InBuffer b)
                = inr (b, Some ("image/" ++ md_format metadata)%string)).
    { cbn [resolveInput]. unfold detectMimeType. now rewrite Hmd. }
    rewrite (processInput_resolved _ o _ _ R).
    assert (Hopt : optimizes (typed o (Some ("image/" ++ md_format metadata)%string))
                   = negb (ToBoolean (skipImageOptimization o))).
    { unfold optimizes, isImage. cbn [typed mimeType options ToBoolean].
      rewrite startsWith_append. cbn [andb].
      change (options (typed o _)) with (options (constructor o)).
      apply skip_not. }
    rewrite Hopt.
    destruct (ToBoolean (skipImageOptimization o)); cbn [negb];
      [reflexivity|].
    rewrite optimizeImage_run, Hmd.
    change (options (typed o _)) with (options (constructor o)).
    destruct (sharp_toBuffer _); reflexivity.
Qed.

Lemma concat_from_other (buffers : list Buffer) (received : string)
      (rest : list Chunk) (i : nat) :
  concat_from i (map ChunkBuffer buffers ++ ChunkOther received :: rest)
  = inl (not_a_buffer (i + List.length buffers) received).
Proof.
  revert i. induction buffers as [|b buffers IH]; intros i; cbn.
  - now rewrite Nat.add_0_r.
  - rewrite IH. now rewrite Nat.add_succ_r.
Qed.

(** [processInput] on a stream.  A stream that fails makes it fail
    with the error of the stream, whatever was yielded before; one that
    ends is handled as the buffer [Buffer.concat] makes of its chunks,
    which is their bytes in the order of arrival when all are buffers,
    and the [TypeError] that names the first chunk that is not one
    otherwise; on a failure the handler is left as it was. *)
Theorem processInput_readable (chunks : list Chunk) (failure : option Exn)
        (this : FileHandler) :
  processInput (InReadable chunks failure) this
  = match failure with
    | Some e => (inl e, this)
    | None =>
        match Buffer_concat chunks with
        | inl e => (inl e, this)
        | inr buffer => processInput (InBuffer buffer) this
        end
    end
  /\ (forall buffers,
        Buffer_concat (map ChunkBuffer buffers) = inr (List.concat buffers))
  /\ (forall buffers received rest,
        Buffer_concat (map ChunkBuffer buffers ++ ChunkOther received :: rest)
        = inl (not_a_buffer (List.length buffers) received)).
Proof.
  split; [|split].
  - destruct failure as [e|].
    + now apply processInput_unresolved.
    + destruct (Buffer_concat chunks) as [e|buffer] eqn:C.
      * apply processInput_unresolved. cbn [resolveInput].
        rewrite drain_all. cbn [rbind]. now rewrite C.
      * apply processInput_same_resolution. cbn [resolveInput].
        rewrite drain_all. cbn [rbind]. now rewrite C.
  - intros buffers. apply concat_from_buffers.
  - intros buffers received rest. unfold Buffer_concat.
    now rewrite concat_from_other.
Qed.

(** An error of [fetch] or of [fs.readFile] is the error of [handle];
    the handler stays as the constructor left it. *)
Theorem io_error_propagates (input : string) (o : Options)
        (st : option FileHandler) (e : Exn) :
  (if startsWith input "http://" || startsWith input "https://"
   then fetch input = inl e
   else readFile input = inl e) ->
  handle (InValue (JStr input)) o st = (inl e, Some (constructor o)).
Proof.
  intros H.
  assert (R : resolveInput (InValue (JStr input)) = inl e).
  { cbn [resolveInput].
    destruct (startsWith input "http://" || startsWith input "https://");
      now rewrite H. }
  unfold handle. now rewrite (processInput_unresolved _ _ _ R).
Qed.

(** A file whose name [mime.lookup] does not know is kept as it is,
    with the type [application/octet-stream], whatever its bytes and
    the options are. *)
Theorem unknown_extension_passes_through (path : string) (bytes : Buffer)
        (o : Options) (st : option FileHandler) :
  startsWith path "http://" || startsWith path "https://" = false ->
  readFile path = inr bytes ->
  mime_lookup path = None ->
  fst (handle (InValue (JStr path)) o st)
  = inr (passed_through o bytes (Some "application/octet-stream")).
Proof.
  intros Hurl Hread Hmime.
  assert (R : resolveInput (InValue (JStr path))
              = inr (bytes, Some "application/octet-stream")).
  { cbn [resolveInput]. now rewrite Hurl, Hread, Hmime. }
  rewrite handle_run, (processInput_resolved _ o _ _ R).
  reflexivity.
Qed.

(** A blob without declared type is kept as it is, with the type
    [application/octet-stream]. *)
Theorem untyped_blob_passes_through (bytes : Buffer) (o : Options)
        (st : option FileHandler) :
  fst (handle (InBlob bytes "") o st)
  = inr (passed_through o bytes (Some "application/octet-stream")).
Proof.
  rewrite handle_run.
  now rewrite (processInput_resolved (InBlob bytes "") o bytes
                 (Some "application/octet-stream") eq_refl).
Qed.

(** A handler on which [processInput] completed has the options of
    the constructor and holds bytes; its type is [null] only for a URL
    whose response had no content-type header, and then its bytes are
    the body of the response. *)
Theorem null_type_only_from_fetch (input : Input) (o : Options)
        (this : FileHandler) :
  processInput input (constructor o) = (inr tt, this) ->
  options this = options (constructor o)
  /\ (exists bytes, buffer this = Some bytes)
  /\ (mimeType this = None ->
      exists url body,
        input = InValue (JStr url)
        /\ startsWith url "http://" || startsWith url "https://" = true
        /\ fetch url = inr (mkResponse body None)
        /\ buffer this = Some body).
Proof.
  intros P. split; [|split; [exact (processInput_completed _ _ _ P)|]];
    revert P.
  - destruct (resolveInput input) as [e|[bytes m]] eqn:R.
    + rewrite (processInput_unresolved _ _ _ R). discriminate.
    + rewrite (processInput_resolved _ o _ _ R).
      destruct (optimizes (typed o m)).
      * rewrite optimizeImage_run.
        destruct (sharp_metadata bytes) as [e|md]; [discriminate|].
        destruct (sharp_toBuffer _) as [e|out]; [discriminate|].
        intros H. inversion H; subst this. reflexivity.
      * intros H. inversion H; subst this. reflexivity.
  - destruct (resolveInput input) as [e|[bytes m]] eqn:R.
    + rewrite (processInput_unresolved _ _ _ R). discriminate.
    + rewrite (processInput_resolved _ o _ _ R).
      destruct (optimizes (typed o m)) eqn:Hopt.
      * rewrite optimizeImage_run.
        destruct (sharp_metadata bytes) as [e|md]; [discriminate|].
        destruct (sharp_toBuffer _) as [e|out]; [discriminate|].
        intros H. inversion H; subst this. discriminate.
      * intros H. inversion H; subst this.
        cbn [passed_through mimeType buffer]. intros ->.
        destruct input as [v|b|chunks failure|blob type|]; try discriminate.
        -- destruct v as [| |b|f|url]; try discriminate.
           cbn [resolveInput] in R.
           destruct (startsWith url "http://" || startsWith url "https://")
             eqn:Hurl.
           ++ destruct (fetch url) as [e|[body ct]] eqn:F; [discriminate|].
              cbn in R. inversion R; subst. exists url, bytes. auto.
           ++ destruct (readFile url); discriminate.
        -- cbn [resolveInput] in R. unfold detectMimeType in R.
           destruct (sharp_metadata b); discriminate.
        -- cbn [resolveInput] in R. unfold detectMimeType in R.
           destruct (drain chunks failure); [discriminate|]. cbn [rbind] in R.
           destruct (Buffer_concat _); [discriminate|]. cbn [rbind] in R.
           destruct (sharp_metadata _); discriminate.
Qed.

(** When [processInput] fails on a new handler, that handler keeps the
    options of the constructor and holds no bytes, whatever was
    resolved before the failure, so its exports throw. *)
Theorem failed_processInput_stores_no_bytes (input : Input) (o : Options)
        (e : Exn) (this : FileHandler) :
  processInput input (constructor o) = (inl e, this) ->
  options this = options (constructor o)
  /\ buffer this = None
  /\ toBuffer this = None
  /\ toBase64URL this = inl null_buffer
  /\ toBase64 this = inl null_buffer.
Proof.
  destruct (resolveInput input) as [e'|[bytes m]] eqn:R.
  - rewrite (processInput_unresolved _ _ _ R).
    intros H. inversion H; subst. repeat split.
  - rewrite (processInput_resolved _ o _ _ R).
    destruct (optimizes (typed o m)); [|discriminate].
    rewrite optimizeImage_run.
    destruct (sharp_metadata bytes) as [e'|md].
    + intros H. inversion H; subst. repeat split.
    + destruct (sharp_toBuffer _) as [e'|out]; [|discriminate].
      intros H. inversion H; subst. repeat split.
Qed.

End MorePipelineFacts.

(* ================================================================== *)
(** * Properties of the other exports *)
(* ================================================================== *)

Lemma encoded_length (bs : list Byte.byte) :
  String.length (Base64.encode bs) = (4 * ((List.length bs + 2) / 3))%nat.
Proof.
  assert (H : forall l, String.length (string_of_list_ascii l) = List.length l).
  { induction l as [|c l IH]; cbn; [reflexivity | now rewrite IH]. }
  unfold Base64.encode. rewrite H, length_app, length_map.
  induction bs as [|a|a b|a b c l IH] using list_ind3; try reflexivity.
  cbn [Base64.sextets Base64.padding List.length].
  replace (S (S (S (List.length l))) + 2)%nat
    with ((List.length l + 2) + 1 * 3)%nat by lia.
  rewrite Nat.div_add by lia. lia.
Qed.

Lemma range_below (lo hi c : ascii) :
  range lo hi c = true -> (N_of_ascii c <= N_of_ascii hi)%N.
Proof.
  unfold range. intros H. apply andb_prop in H. destruct H as [_ H].
  now apply N.leb_le in H.
Qed.

Lemma class_below_128 (c : ascii) :
  base64_class c = true -> (N_of_ascii c < 128)%N.
Proof.
  unfold base64_class. intros H.
  apply orb_true_iff in H. destruct H as [H|H];
    [apply orb_true_iff in H; destruct H as [H|H];
     [apply orb_true_iff in H; destruct H as [H|H]|]|].
  - apply range_below in H. cbn in H. lia.
  - apply range_below in H. cbn in H. lia.
  - apply range_below in H. cbn in H. lia.
  - unfold one_of in H. cbn [list_ascii_of_string existsb] in H.
    apply orb_true_iff in H. destruct H as [H|H];
      [|apply orb_true_iff in H; destruct H as [H|H]; [|discriminate]];
      apply Ascii.eqb_eq in H; subst c; cbn; lia.
Qed.

Lemma utf8_unit_ascii (c : ascii) :
  (N_of_ascii c < 128)%N -> utf8_unit c = [byte_of_ascii c].
Proof.
  intros H. unfold utf8_unit.
  replace (Z.of_N (N_of_ascii c) <? 128)%Z with true
    by (symmetry; apply Z.ltb_lt; lia).
  unfold byte_of_Z. now rewrite N2Z.id, ascii_N_embedding.
Qed.

Lemma Buffer_from_ascii (s : string) :
  Forall (fun c => (N_of_ascii c < 128)%N) (list_ascii_of_string s) ->
  Buffer_from_string s = list_byte_of_string s.
Proof.
  unfold Buffer_from_string, list_byte_of_string.
  induction 1 as [|c l Hc _ IH]; cbn [flat_map map]; [reflexivity|].
  now rewrite (utf8_unit_ascii c Hc), IH.
Qed.

Lemma padded_below_128 (l : list ascii) :
  padded l -> Forall (fun c => (N_of_ascii c < 128)%N) l.
Proof.
  assert (Hpad : (N_of_ascii Base64.pad < 128)%N) by (cbn; lia).
  induction 1; repeat constructor; auto using class_below_128.
Qed.

Lemma plain_type_kept (m : string) : plain_type m = true -> Blob_type m = m.
Proof.
  unfold plain_type, Blob_type. intros H.
  assert (Hp : forallb printable (list_ascii_of_string m) = true).
  { rewrite forallb_forall in *. intros c Hc.
    apply H in Hc. apply andb_prop in Hc. tauto. }
  rewrite Hp.
  rewrite <- (string_of_list_ascii_of_string m) at 2. f_equal.
  rewrite <- (map_id (list_ascii_of_string m)) at 2.
  apply map_ext_in. intros c Hc. rewrite forallb_forall in H.
  apply H in Hc. apply andb_prop in Hc. destruct Hc as [_ Hu].
  unfold lower. apply negb_true_iff in Hu. now rewrite Hu.
Qed.

Section MoreExportFacts.

Context {E : Env}.

(** [toBase64()] of a handler that holds bytes does not throw; [atob]
    of the text gives the bytes of the handler back, and the text has
    four characters for every three bytes, rounded up. *)
Theorem toBase64_round_trip (this : FileHandler) (bytes : Buffer) :
  buffer this = Some bytes ->
  exists text,
    toBuffer this = Some bytes
    /\ toBase64 this = inr text
    /\ atob text = inr (string_of_list_byte bytes)
    /\ Base64.decode text = Some bytes
    /\ String.length text = (4 * ((List.length bytes + 2) / 3))%nat.
Proof.
  intros Hb. exists (Base64.encode bytes). unfold toBuffer, toBase64.
  rewrite Hb. repeat split.
  - apply btoa_atob_encoded.
  - apply decode_encode.
  - apply encoded_length.
Qed.

(** [toBase64Buffer()] holds the characters of [toBase64()], one byte
    each: four bytes for every three bytes of the handler, rounded up. *)
Theorem toBase64Buffer_size (this : FileHandler) (bytes : Buffer) :
  buffer this = Some bytes ->
  exists out,
    toBase64Buffer this = inr out
    /\ toBase64 this = inr (string_of_list_byte out)
    /\ List.length out = (4 * ((List.length bytes + 2) / 3))%nat.
Proof.
  intros Hb. unfold toBase64Buffer, toBase64. rewrite Hb.
  exists (list_byte_of_string (Base64.encode bytes)).
  rewrite Buffer_from_ascii
    by (apply padded_below_128, encode_padded).
  rewrite string_of_list_byte_of_string. repeat split.
  unfold list_byte_of_string. rewrite length_map.
  rewrite <- encoded_length.
  generalize (Base64.encode bytes) as s.
  induction s as [|c s IH]; cbn; [reflexivity | now rewrite IH].
Qed.

(** Handing the stream of [toStream()] to [handle] is the same as
    handing it the buffer of the handler. *)
Theorem toStream_round_trip (this : FileHandler) (bytes : Buffer) :
  buffer this = Some bytes ->
  exists stream,
    toStream this = inr stream
    /\ resolveInput stream = resolveInput (InBuffer bytes)
    /\ forall o st, handle stream o st = handle (InBuffer bytes) o st.
Proof.
  intros Hb. unfold toStream. rewrite Hb.
  exists (InReadable [ChunkBuffer bytes] None).
  assert (R : resolveInput (InReadable [ChunkBuffer bytes] None)
              = resolveInput (InBuffer bytes)).
  { rewrite (resolveInput_sniffs [bytes]). cbn [concat].
    now rewrite app_nil_r. }
  repeat split; [exact R|].
  intros o st. apply handle_same_resolution, R.
Qed.

(** [toBlob()] keeps the bytes of the handler.  Its type is the type of
    the handler when that is printable ASCII without upper case, and
    [null], as a string, when the handler has no type; handed back to
    [processInput], a blob with a type that is kept and not empty
    resolves to the bytes and the type of the handler. *)
Theorem toBlob_round_trip (this : FileHandler) (bytes : Buffer) :
  buffer this = Some bytes ->
  blob_bytes (toBlob this) = bytes
  /\ (mimeType this = None -> blob_type (toBlob this) = "null")
  /\ (forall m,
        mimeType this = Some m ->
        plain_type m = true ->
        blob_type (toBlob this) = m
        /\ (m <> "" ->
            resolveInput (InBlob_of (toBlob this)) = inr (bytes, Some m))).
Proof.
  intros Hb. unfold toBlob, Blob_new, InBlob_of. rewrite Hb.
  cbn [blob_bytes blob_type].
  split; [reflexivity|]. split.
  - intros ->. reflexivity.
  - intros m -> Hm. cbn [mimeType_text]. rewrite (plain_type_kept m Hm).
    split; [reflexivity|]. intros Hne. cbn [resolveInput str_or].
    apply String.eqb_neq in Hne. now rewrite Hne.
Qed.

(** [isBase64DataURL] on [toBase64URL()] of a handler whose type is
    [type/subtype], of letters and digits before the slash and of
    letters, digits, [-], [.] and [+] after it: accepted without a
    prefix, and with a prefix when the prefix is empty or starts the
    type. *)
Theorem exported_url_classified (this : FileHandler) (bytes : Buffer)
        (type subtype : string) (mimeTypePrefix : option string) :
  buffer this = Some bytes ->
  mimeType this = Some (type ++ "/" ++ subtype)%string ->
  is_token alnum_class type = true ->
  is_token subtype_class subtype = true ->
  exists url,
    toBase64URL this = inr url
    /\ isBase64DataURL (JStr url) mimeTypePrefix
       = match mimeTypePrefix with
         | Some p => String.eqb p "" || startsWith (type ++ "/" ++ subtype) p
         | None => true
         end.
Proof.
  intros Hb Hm Ht Hs. unfold toBase64URL. rewrite Hb, Hm.
  cbn [mimeType_text]. eexists. split; [reflexivity|].
  apply isBase64DataURL_built; assumption.
Qed.

(** What the optimisation branch produces for a format that is a
    string of letters, digits, [-], [.] and [+] exports to a data URL
    that [isBase64DataURL] accepts as an image. *)
Theorem optimized_export_is_image_url (input : Input) (o : Options)
        (bytes : Buffer) (m : option string) (this : FileHandler)
        (f : string) :
  resolveInput input = inr (bytes, m) ->
  optimizes (typed o m) = true ->
  processInput input (constructor o) = (inr tt, this) ->
  format (options (constructor o)) = JStr f ->
  is_token subtype_class f = true ->
  ToBoolean (isImage this) = true
  /\ exists url,
       toBase64URL this = inr url
       /\ isBase64DataURL (JStr url) (Some "image/") = true
       /\ isBase64DataURL (JStr url) None = true.
Proof.
  intros R Hopt P Hf Htoken.
  rewrite (processInput_resolved _ o _ _ R), Hopt, optimizeImage_run in P.
  change (options (typed o m)) with (options (constructor o)) in P.
  destruct (sharp_metadata bytes) as [e|md]; [discriminate|].
  destruct (sharp_toBuffer _) as [e|out]; [discriminate|].
  apply (f_equal snd) in P. cbn [snd] in P. subst this.
  rewrite Hf. cbn [ToString].
  split.
  - unfold isImage. cbn [mimeType ToBoolean]. apply startsWith_append.
  - unfold toBase64URL. cbn [buffer mimeType mimeType_text].
    eexists. split; [reflexivity|].
    rewrite !(isBase64DataURL_built "image" f out _ eq_refl Htoken).
    split; [|reflexivity].
    change (String.eqb "image/" "") with false. cbn [orb].
    apply (startsWith_append "image/" f).
Qed.

End MoreExportFacts.

(* ================================================================== *)
(** * The bounds are not exceeded by an image of their size *)
(* ================================================================== *)

Lemma ltb_irreflexive (x : float) : PrimFloat.ltb x x = false.
Proof.
  rewrite ltb_spec. unfold SpecFloat.SFltb, SpecFloat.SFcompare.
  destruct (Prim2SF x) as [s|s| |s m e]; try destruct s; try reflexivity;
    rewrite Z.compare_refl, Pos.compare_cont_refl; reflexivity.
Qed.

(** The comparison with the bounds is strict: for numeric bounds, an
    image that is exactly [maxWidth] by [maxHeight] is not resized, it
    is only converted. *)
Theorem exact_bounds_not_resized (E : Env) (c : Options) (bytes : Buffer)
        (metadata : Metadata) :
  maxWidth c = JNum (md_width metadata) ->
  maxHeight c = JNum (md_height metadata) ->
  let image := transcode c bytes metadata in
  sh_resize image = None
  /\ sh_toFormat image = Some (mkFormat (format c) (quality c))
  /\ output_dimensions image metadata
     = (md_width metadata, md_height metadata).
Proof.
  intros Hw Hh. cbv zeta. unfold output_dimensions, transcode, exceeds.
  rewrite Hw, Hh. cbn [js_gt ToNumber]. rewrite !ltb_irreflexive.
  cbn [orb]. repeat split.
Qed.

(* ================================================================== *)
(** * The properties above on concrete inputs *)
(* ================================================================== *)

(** [exact_bounds_not_resized] on an image of 500 by 500 and the
    default bounds. *)
Lemma exact_bounds_not_resized_witness :
  let c := options (constructor no_options) in
  let metadata := mkMetadata "png" 500%float 500%float in
  maxWidth c = JNum (md_width metadata)
  /\ maxHeight c = JNum (md_height metadata)
  /\ sh_resize (@transcode Demo.env c Demo.small_png metadata) = None.
Proof.
  cbv zeta. split; [reflexivity|]. split; [reflexivity|].
  apply (exact_bounds_not_resized Demo.env (options (constructor no_options))
           Demo.small_png (mkMetadata "png" 500%float 500%float));
    reflexivity.
Defined.

(** [isBase64_canonical] on the text of [hello]. *)
Lemma isBase64_canonical_witness :
  isBase64 (JStr "aGVsbG8=") = true
  /\ exists bs, bs <> [] /\ JStr "aGVsbG8=" = JStr (Base64.encode bs).
Proof.
  split; [vm_compute; reflexivity|].
  apply isBase64_canonical. vm_compute. reflexivity.
Defined.

(** [io_error_propagates] on a URL the small environment does not
    serve. *)
Lemma io_error_propagates_witness :
  (if startsWith "https://example.com/missing" "http://"
      || startsWith "https://example.com/missing" "https://"
   then @fetch Demo.env "https://example.com/missing"
        = inl (Error "request failed")
   else @readFile Demo.env "https://example.com/missing"
        = inl (Error "request failed"))
  /\ @handle Demo.env (InValue (JStr "https://example.com/missing"))
       no_options None
     = (inl (Error "request failed"), Some (constructor no_options)).
Proof.
  split; [reflexivity|].
  apply (@io_error_propagates Demo.env "https://example.com/missing"
           no_options None (Error "request failed")).
  reflexivity.
Defined.

(** [unknown_extension_passes_through] on the file without extension
    of the second environment. *)
Lemma unknown_extension_passes_through_witness :
  startsWith "unknown-file" "http://" || startsWith "unknown-file" "https://"
  = false
  /\ @readFile Offline.env "unknown-file" = inr Demo.not_an_image
  /\ @mime_lookup Offline.env "unknown-file" = None
  /\ fst (@handle Offline.env (InValue (JStr "unknown-file")) no_options None)
     = inr (passed_through no_options Demo.not_an_image
              (Some "application/octet-stream")).
Proof.
  split; [reflexivity|]. split; [reflexivity|]. split; [reflexivity|].
  apply (@unknown_extension_passes_through Offline.env "unknown-file"
           Demo.not_an_image no_options None); reflexivity.
Defined.

(** [null_type_only_from_fetch] on the response without content type. *)
Lemma null_type_only_from_fetch_witness :
  let this := passed_through no_options Demo.small_png None in
  @processInput Demo.env (InValue (JStr "https://example.com/logo"))
    (constructor no_options) = (inr tt, this)
  /\ mimeType this = None
  /\ exists url body,
       InValue (JStr "https://example.com/logo") = InValue (JStr url)
       /\ startsWith url "http://" || startsWith url "https://" = true
       /\ @fetch Demo.env url = inr (mkResponse body None)
       /\ buffer this = Some body.
Proof.
  cbv zeta.
  assert (H : @processInput Demo.env
                (InValue (JStr "https://example.com/logo"))
                (constructor no_options)
              = (inr tt, passed_through no_options Demo.small_png None))
    by reflexivity.
  split; [exact H|]. split; [reflexivity|].
  destruct (@null_type_only_from_fetch Demo.env _ _ _ H) as (_ & _ & G).
  apply G. reflexivity.
Defined.

(** [failed_processInput_stores_no_bytes] on the file that does not
    decode. *)
Lemma failed_processInput_stores_no_bytes_witness :
  let this := typed no_options (Some "image/png") in
  @processInput Demo.env (InValue (JStr "broken.png"))
    (constructor no_options)
  = (inl (Error "Input buffer contains unsupported image format"), this)
  /\ options this = options (constructor no_options)
  /\ buffer this = None
  /\ toBuffer this = None
  /\ toBase64URL this = inl null_buffer
  /\ toBase64 this = inl null_buffer.
Proof.
  cbv zeta.
  assert (H : @processInput Demo.env (InValue (JStr "broken.png"))
                (constructor no_options)
              = (inl (Error "Input buffer contains unsupported image format"),
                 typed no_options (Some "image/png")))
    by reflexivity.
  split; [exact H|].
  apply (@failed_processInput_stores_no_bytes Demo.env _ _ _ _ H).
Defined.

(** [toBase64_round_trip] on a handler that holds four bytes. *)
Lemma toBase64_round_trip_witness :
  let this :=
    passed_through no_options Demo.not_an_image (Some "text/plain") in
  buffer this = Some Demo.not_an_image
  /\ exists text,
       toBuffer this = Some Demo.not_an_image
       /\ toBase64 this = inr text
       /\ atob text = inr (string_of_list_byte Demo.not_an_image)
       /\ Base64.decode text = Some Demo.not_an_image
       /\ String.length text = 8%nat.
Proof.
  cbv zeta. split; [reflexivity|].
  apply (toBase64_round_trip
           (passed_through no_options Demo.not_an_image (Some "text/plain"))
           Demo.not_an_image).
  reflexivity.
Defined.

(** [toBase64Buffer_size] on four bytes. *)
Lemma toBase64Buffer_size_witness :
  let this :=
    passed_through no_options Demo.not_an_image (Some "text/plain") in
  buffer this = Some Demo.not_an_image
  /\ exists out,
       toBase64Buffer this = inr out
       /\ toBase64 this = inr (string_of_list_byte out)
       /\ List.length out = 8%nat.
Proof.
  cbv zeta. split; [reflexivity|].
  apply (toBase64Buffer_size
           (passed_through no_options Demo.not_an_image (Some "text/plain"))
           Demo.not_an_image).
  reflexivity.
Defined.

(** [toStream_round_trip] on a handler that holds an image. *)
Lemma toStream_round_trip_witness :
  let this :=
    passed_through no_options Demo.large_png (Some "image/png") in
  buffer this = Some Demo.large_png
  /\ exists stream,
       toStream this = inr stream
       /\ @resolveInput Demo.env stream
          = @resolveInput Demo.env (InBuffer Demo.large_png)
       /\ forall o st,
            @handle Demo.env stream o st
            = @handle Demo.env (InBuffer Demo.large_png) o st.
Proof.
  cbv zeta. split; [reflexivity|].
  apply (@toStream_round_trip Demo.env
           (passed_through no_options Demo.large_png (Some "image/png"))
           Demo.large_png).
  reflexivity.
Defined.

(** [toBlob_round_trip] on a handler of type [text/plain]. *)
Lemma toBlob_round_trip_witness :
  let this :=
    passed_through no_options Demo.not_an_image (Some "text/plain") in
  buffer this = Some Demo.not_an_image
  /\ plain_type "text/plain" = true
  /\ @resolveInput Demo.env (InBlob_of (toBlob this))
     = inr (Demo.not_an_image, Some "text/plain").
Proof.
  cbv zeta. split; [reflexivity|]. split; [reflexivity|].
  destruct (@toBlob_round_trip Demo.env
              (passed_through no_options Demo.not_an_image
                 (Some "text/plain"))
              Demo.not_an_image eq_refl) as (_ & _ & H).
  destruct (H "text/plain" eq_refl eq_refl) as [_ G].
  apply G. discriminate.
Defined.

(** [exported_url_classified] on a handler of type [text/plain] and the
    prefix [image/]. *)
Lemma exported_url_classified_witness :
  let this :=
    passed_through no_options Demo.not_an_image (Some "text/plain") in
  buffer this = Some Demo.not_an_image
  /\ mimeType this = Some ("text" ++ "/" ++ "plain")%string
  /\ is_token alnum_class "text" = true
  /\ is_token subtype_class "plain" = true
  /\ exists url,
       toBase64URL this = inr url
       /\ isBase64DataURL (JStr url) (Some "image/") = false.
Proof.
  cbv zeta. split; [reflexivity|]. split; [reflexivity|].
  split; [reflexivity|]. split; [reflexivity|].
  apply (exported_url_classified
           (passed_through no_options Demo.not_an_image (Some "text/plain"))
           Demo.not_an_image "text" "plain" (Some "image/"));
    reflexivity.
Defined.

(** [optimized_export_is_image_url] on a PNG buffer converted to WebP. *)
Lemma optimized_export_is_image_url_witness :
  let this :=
    {| options := options (constructor Demo.webp_options);
       buffer := Some [Byte.x4a; Byte.x00];
       mimeType := Some "image/webp" |} in
  @resolveInput Demo.env (InBuffer Demo.large_png)
  = inr (Demo.large_png, Some "image/png")
  /\ optimizes (typed Demo.webp_options (Some "image/png")) = true
  /\ @processInput Demo.env (InBuffer Demo.large_png)
       (constructor Demo.webp_options) = (inr tt, this)
  /\ format (options (constructor Demo.webp_options)) = JStr "webp"
  /\ is_token subtype_class "webp" = true
  /\ exists url,
       toBase64URL this = inr url
       /\ isBase64DataURL (JStr url) (Some "image/") = true
       /\ isBase64DataURL (JStr url) None = true.
Proof.
  cbv zeta.
  assert (R : @resolveInput Demo.env (InBuffer Demo.large_png)
              = inr (Demo.large_png, Some "image/png")) by reflexivity.
  assert (O : optimizes (typed Demo.webp_options (Some "image/png")) = true)
    by reflexivity.
  assert (P : @processInput Demo.env (InBuffer Demo.large_png)
                (constructor Demo.webp_options)
              = (inr tt,
                 {| options := options (constructor Demo.webp_options);
                    buffer := Some [Byte.x4a; Byte.x00];
                    mimeType := Some "image/webp" |})) by reflexivity.
  split; [exact R|]. split; [exact O|]. split; [exact P|].
  split; [reflexivity|]. split; [reflexivity|].
  apply (@optimized_export_is_image_url Demo.env _ _ _ _ _ "webp" R O P);
    reflexivity.
Defined.

(* ================================================================== *)
(** * What [isBase64DataURL] rejects *)
(* ================================================================== *)

Lemma star_loop_sound (r : regex)
      (k : list ascii -> captures -> option captures)
      (IHr : forall s cs k' res,
          rmatch r s cs k' = Some res ->
          exists l s' new,
            s = l ++ s' /\ matches r l
            /\ Forall (fun e => In (fst e) (groups r)) new
            /\ k' s' (new ++ cs) = Some res) :
  forall fuel s cs res,
    star_loop r k fuel s cs = Some res ->
    exists l s' new,
      s = l ++ s' /\ matches (Star r) l
      /\ Forall (fun e => In (fst e) (groups r)) new
      /\ k s' (new ++ cs) = Some res.
Proof.
  induction fuel as [|fuel IH]; intros s cs res H; cbn [star_loop] in H.
  - exists [], s, []. repeat split; [constructor|constructor|exact H].
  - destruct (rmatch r s cs _) as [res'|] eqn:R.
    + inversion H; subst res'. clear H.
      apply IHr in R. destruct R as (l1 & s1 & new1 & -> & M1 & F1 & K1).
      destruct (List.length s1 <? List.length (l1 ++ s1))%nat;
        [|discriminate].
      apply IH in K1. destruct K1 as (l2 & s2 & new2 & -> & M2 & F2 & K2).
      exists (l1 ++ l2), s2, (new2 ++ new1).
      rewrite <- !app_assoc. repeat split; auto.
      * now constructor.
      * apply Forall_app. auto.
    + exists [], s, []. repeat split; [constructor|constructor|exact H].
Qed.

(** A successful match consumed a string of the expression, recorded
    groups of the expression only, and went on with the rest. *)
Lemma rmatch_sound (r : regex) :
  forall s cs k res,
    rmatch r s cs k = Some res ->
    exists l s' new,
      s = l ++ s' /\ matches r l
      /\ Forall (fun e => In (fst e) (groups r)) new
      /\ k s' (new ++ cs) = Some res.
Proof.
  induction r as [|p|r1 IH1 r2 IH2|r1 IH1 r2 IH2|r IH|i r IH];
    intros s cs k res H.
  - exists [], s, []. repeat split; [constructor|constructor|exact H].
  - destruct s as [|c s]; [discriminate|]. rewrite rmatch_Class_cons in H.
    destruct (p c) eqn:Hc; [|discriminate].
    exists [c], s, []. repeat split; [now constructor|constructor|exact H].
  - rewrite rmatch_Seq in H. apply IH1 in H.
    destruct H as (l1 & s1 & new1 & -> & M1 & F1 & H).
    apply IH2 in H. destruct H as (l2 & s2 & new2 & -> & M2 & F2 & H).
    exists (l1 ++ l2), s2, (new2 ++ new1).
    rewrite <- !app_assoc. repeat split; auto.
    + now constructor.
    + cbn [groups]. apply Forall_app. split.
      * eapply Forall_impl; [|exact F2]. intros e He. apply in_or_app. auto.
      * eapply Forall_impl; [|exact F1]. intros e He. apply in_or_app. auto.
  - cbn [rmatch] in H. destruct (rmatch r1 s cs k) as [res'|] eqn:R.
    + inversion H; subst res'. apply IH1 in R.
      destruct R as (l & s' & new & -> & M & F & K).
      exists l, s', new. repeat split; auto.
      * now apply matches_alt_l.
      * cbn [groups]. eapply Forall_impl; [|exact F].
        intros e He. apply in_or_app. auto.
    + apply IH2 in H. destruct H as (l & s' & new & -> & M & F & K).
      exists l, s', new. repeat split; auto.
      * now apply matches_alt_r.
      * cbn [groups]. eapply Forall_impl; [|exact F].
        intros e He. apply in_or_app. auto.
  - rewrite rmatch_Star_loop in H.
    apply (star_loop_sound r k IH) in H. exact H.
  - rewrite rmatch_Capture in H. apply IH in H.
    destruct H as (l & s' & new & -> & M & F & K).
    exists l, s', ((i, string_of_list_ascii l) :: new).
    rewrite firstn_taken in K. repeat split; auto.
    + now constructor.
    + cbn [groups]. constructor; [now left|].
      eapply Forall_impl; [|exact F]. intros e He. now right.
Qed.

Lemma groups_Lit (p : string) : groups (Lit p) = [].
Proof. induction p as [|c p IH]; cbn; [reflexivity | exact IH]. Qed.

Lemma matches_Lit (p : string) (l : list ascii) :
  matches (Lit p) l -> l = list_ascii_of_string p.
Proof.
  revert l. induction p as [|c p IH]; intros l H; cbn [Lit] in H.
  - now inversion H.
  - inversion H as [| |? ? l1 l2 H1 H2| | | | |]; subst.
    inversion H1 as [|? d Hd| | | | | |]; subst.
    apply Ascii.eqb_eq in Hd. subst d. cbn. f_equal. now apply IH.
Qed.

Lemma matches_Star_class (p : ascii -> bool) (l : list ascii) :
  matches (Star (Class p)) l -> Forall (fun c => p c = true) l.
Proof.
  intros H. remember (Star (Class p)) as r eqn:Hr.
  induction H as [| | | | | |r' l1 l2 H1 _ H2 IH2|]; try discriminate.
  - constructor.
  - inversion Hr; subst r'. apply Forall_app. split; [|now apply IH2].
    inversion H1; subst. now repeat constructor.
Qed.

Lemma matches_Plus_class (p : ascii -> bool) (l : list ascii) :
  matches (Plus (Class p)) l ->
  l <> [] /\ Forall (fun c => p c = true) l.
Proof.
  unfold Plus. intros H.
  inversion H as [| |? ? l1 l2 H1 H2| | | | |]; subst.
  inversion H1; subst. split; [discriminate|].
  constructor; [assumption|]. now apply matches_Star_class.
Qed.

Lemma no_groups (new : captures) (cs : captures) :
  Forall (fun e : nat * string => In (fst e) []) new -> new ++ cs = cs.
Proof. intros H. destruct new; [reflexivity|]. inversion H; contradiction. Qed.

Lemma capture_skip (i j : nat) (new rest : captures) :
  i <> j ->
  Forall (fun e : nat * string => In (fst e) [j]) new ->
  capture i (new ++ rest) = capture i rest.
Proof.
  intros Hij. induction 1 as [|[n s] new Hn _ IH]; [reflexivity|].
  cbn [app capture]. cbn in Hn. destruct Hn as [<-|[]].
  apply Nat.eqb_neq in Hij. now rewrite Hij.
Qed.

Lemma string_of_append (a b : list ascii) :
  string_of_list_ascii (a ++ b)
  = (string_of_list_ascii a ++ string_of_list_ascii b)%string.
Proof. induction a as [|c a IH]; cbn; [reflexivity | now rewrite IH]. Qed.

Lemma string_append_assoc (a b c : string) :
  ((a ++ b) ++ c = a ++ (b ++ c))%string.
Proof. induction a as [|x a IH]; cbn; [reflexivity | now rewrite IH]. Qed.

Lemma token_of_chars (p : ascii -> bool) (l : list ascii) :
  l <> [] -> Forall (fun c => p c = true) l ->
  is_token p (string_of_list_ascii l) = true.
Proof.
  intros Hne Hl. unfold is_token.
  rewrite list_ascii_of_string_of_list_ascii.
  apply andb_true_intro. split.
  - destruct l; [contradiction|reflexivity].
  - apply forallb_forall. rewrite Forall_forall in Hl. exact Hl.
Qed.

(** What a match of [dataURLRegex] says of the subject and of the
    groups 1 and 3. *)
Lemma dataURLRegex_sound (s : string) (cs : captures) :
  exec dataURLRegex s = Some cs ->
  exists type subtype params payload,
    s = ("data:" ++ (type ++ "/" ++ subtype) ++ params ++ ";base64,"
           ++ payload)%string
    /\ is_token alnum_class type = true
    /\ is_token subtype_class subtype = true
    /\ capture 1 cs = Some (type ++ "/" ++ subtype)%string
    /\ capture 3 cs = Some payload.
Proof.
  unfold exec. fold at_end. rewrite dataURLRegex_parts, rmatch_Seq.
  intros H. apply rmatch_sound in H.
  destruct H as (l0 & s1 & new0 & Hs & M0 & F0 & H).
  rewrite groups_Lit in F0. rewrite (no_groups _ _ F0) in H.
  apply matches_Lit in M0. subst l0.
  rewrite rmatch_Seq in H. unfold type_group in H.
  rewrite rmatch_Capture, rmatch_Seq in H.
  apply rmatch_sound in H.
  destruct H as (lt & s2 & newt & -> & Mt & Ft & H).
  rewrite (no_groups _ _ Ft) in H.
  apply matches_Plus_class in Mt. destruct Mt as [Hlt Halnum].
  rewrite rmatch_Seq in H. apply rmatch_sound in H.
  destruct H as (lslash & s3 & news & -> & Ms & Fs & H).
  rewrite groups_Lit in Fs. rewrite (no_groups _ _ Fs) in H.
  apply matches_Lit in Ms. subst lslash.
  apply rmatch_sound in H.
  destruct H as (lst & s4 & newst & -> & Mst & Fst & H).
  rewrite (no_groups _ _ Fst) in H.
  apply matches_Plus_class in Mst. destruct Mst as [Hlst Hsub].
  replace (lt ++ list_ascii_of_string "/" ++ lst ++ s4)
    with ((lt ++ list_ascii_of_string "/" ++ lst) ++ s4) in H
    by (now rewrite <- !app_assoc).
  rewrite firstn_taken in H.
  rewrite rmatch_Seq in H. apply rmatch_sound in H.
  destruct H as (lp & s5 & newp & -> & Mp & Fp & H).
  unfold payload_part in H. rewrite rmatch_Seq in H.
  apply rmatch_sound in H.
  destruct H as (lb & s6 & newb & -> & Mb & Fb & H).
  rewrite groups_Lit in Fb. rewrite (no_groups _ _ Fb) in H.
  apply matches_Lit in Mb. subst lb.
  rewrite rmatch_Capture in H. apply rmatch_sound in H.
  destruct H as (lpay & s7 & newpay & -> & Mpay & Fpay & H).
  rewrite (no_groups _ _ Fpay), firstn_taken in H.
  destruct s7; [|discriminate]. cbn [at_end] in H.
  inversion H; subst cs. clear H.
  exists (string_of_list_ascii lt), (string_of_list_ascii lst),
         (string_of_list_ascii lp), (string_of_list_ascii lpay).
  split; [|split; [|split; [|split]]].
  - rewrite <- (string_of_list_ascii_of_string s), Hs.
    rewrite app_nil_r, !string_of_append, !string_of_list_ascii_of_string.
    now rewrite ?string_append_assoc.
  - now apply token_of_chars.
  - now apply token_of_chars.
  - cbn [capture Nat.eqb].
    rewrite (capture_skip 1 2 newp _ (ltac:(discriminate)) Fp).
    cbn [capture Nat.eqb].
    rewrite !string_of_append. reflexivity.
  - reflexivity.
Qed.

(** Whatever [isBase64DataURL] accepts is a string [data:], a type
    [type/subtype], parameters, [;base64,] and the base64 text of a
    buffer, with its padding and nothing else; with a prefix that is
    not empty, the type starts with the prefix. *)
Theorem isBase64DataURL_canonical (v : JsVal)
        (mimeTypePrefix : option string) :
  isBase64DataURL v mimeTypePrefix = true ->
  exists type subtype params bytes,
    v = JStr ("data:" ++ (type ++ "/" ++ subtype) ++ params ++ ";base64,"
                ++ Base64.encode bytes)
    /\ is_token alnum_class type = true
    /\ is_token subtype_class subtype = true
    /\ match mimeTypePrefix with
       | Some p => p = "" \/ startsWith (type ++ "/" ++ subtype) p = true
       | None => True
       end.
Proof.
  unfold isBase64DataURL, js_not.
  destruct v as [| |b|f|s]; try discriminate;
    try (destruct b; discriminate);
    try (cbn; destruct (negb _); discriminate).
  cbn [ToBoolean typeof_is_string negb orb].
  destruct (negb (String.eqb s "")); [|discriminate]. cbn [negb orb].
  destruct (startsWith s "data:"); [|discriminate]. cbn [negb].
  destruct (exec dataURLRegex s) as [cs|] eqn:X; [|discriminate].
  apply dataURLRegex_sound in X.
  destruct X as (type & subtype & params & payload & -> & Ht & Hs & C1 & C3).
  rewrite C1, C3.
  destruct (match mimeTypePrefix with
            | Some p => negb (String.eqb p "")
                        && negb (startsWith (type ++ "/" ++ subtype) p)
            | None => false
            end) eqn:P; [discriminate|].
  unfold atob. destruct (Base64.decode payload) as [bytes|]; [|discriminate].
  cbn [rbind]. unfold btoa. rewrite list_byte_of_string_of_list_byte.
  cbn [rbind try_catch]. intros Heq. apply String.eqb_eq in Heq.
  exists type, subtype, params, bytes. rewrite Heq.
  split; [reflexivity|]. split; [exact Ht|]. split; [exact Hs|].
  destruct mimeTypePrefix as [p|]; [|exact I].
  destruct (String.eqb p "") eqn:Q.
  - left. now apply String.eqb_eq.
  - right. cbn [negb andb] in P. now apply negb_false_iff in P.
Qed.

(** [isBase64DataURL_canonical] on the data URL of [hello]. *)
Lemma isBase64DataURL_canonical_witness :
  isBase64DataURL (JStr "data:image/png;base64,aGVsbG8=") (Some "image/")
  = true
  /\ exists type subtype params bytes,
       JStr "data:image/png;base64,aGVsbG8="
       = JStr ("data:" ++ (type ++ "/" ++ subtype) ++ params ++ ";base64,"
                 ++ Base64.encode bytes)
       /\ is_token alnum_class type = true
       /\ is_token subtype_class subtype = true
       /\ ("image/" = "" \/ startsWith (type ++ "/" ++ subtype) "image/" = true).
Proof.
  split; [vm_compute; reflexivity|].
  apply (isBase64DataURL_canonical
           (JStr "data:image/png;base64,aGVsbG8=") (Some "image/")).
  vm_compute. reflexivity.
Defined.

(* ================================================================== *)
(** * Export to a data URL and back *)
(* ================================================================== *)




Section ExportFacts.

Context {E : Env}.


End ExportFacts.


